(** * Forward-Euler integration of the logistic equation

    A shallow embedding of the code cells of
    [notebooks/Rwanda24/16-Tue-DynSys/Dynamical Systems and ODEs.ipynb]:

<<
    M = 100 ; k = .01 ; dt = 0.1 ; Tmax = 10 ; y0 = 2.0

    times = np.arange(0, Tmax, dt)
    y = np.empty_like(times)
    y[0] = y0
    for i in range(len(times) - 1):
        y[i+1] = y[i] + dt * k * y[i] * (M - y[i])
>>

    The five parameters are Python scalars, each an int or a float, as the
    notebook has them ([M] and [Tmax] are ints there).  A Python float and a
    NumPy [float64] are IEEE-754 binary64 values: the kernel's primitive
    [float] with its round-to-nearest-even operations.  A NumPy [int64] is
    an integer that wraps around.  The type of the grid decides the type of
    [y]: [np.arange] returns an [int64] array when [Tmax] and [dt] are both
    ints and a [float64] array otherwise, [np.empty_like] copies that type,
    and a store into [y] converts the value to it, truncating in an [int64]
    array.

    Python exceptions are an explicit error result.  The array [y] is a
    list of cells that remember whether they were ever written, because
    [np.empty_like] hands out memory whose content is indeterminate.
    Allocation can fail: the machine is a parameter of the run, and every
    machine is taken to have room for [2^20] cells.

    Limits of the model.  The ints of the parameter block are taken within
    the [int64] range, where NumPy keeps them as [int64]; larger ints select
    other array types.  Two operations of an [int64] run have no result
    here ([Unspecified]), because NumPy releases differ on them: the product
    of a Python int beyond [int64] with an [int64] cell, and the store of a
    [float64] that is not finite or beyond [int64] into an [int64] cell.
    The cast of a ceiling of [2^63] to the index type is the one of
    x86-64. *)

From Stdlib Require Import ZArith Floats Lia Bool String.
From stdpp Require Import base option list.

Set Warnings "-inexact-float".
Set Default Proof Using "Type".

(** ** Binary64 helpers *)

Module F64.

(** A value of the specification format that is NaN or carries sign [s]. *)
Variant signed (s : bool) : spec_float → Prop :=
| signed_zero : signed s (S754_zero s)
| signed_infinity : signed s (S754_infinity s)
| signed_finite m e : signed s (S754_finite s m e)
| signed_nan : signed s S754_nan.

Definition sf_zero (x : spec_float) : bool :=
  match x with S754_zero _ => true | _ => false end.

Definition sf_finite (x : spec_float) : bool :=
  match x with S754_zero _ | S754_finite _ _ _ => true | _ => false end.

Definition sf_signbit (x : spec_float) : bool :=
  match x with
  | S754_zero s | S754_infinity s | S754_finite s _ _ => s
  | S754_nan => false
  end.

(** The ceiling of [(-1)^s * m * 2^e] as an exact integer; none for NaN
    and the infinities. *)
Definition sf_ceil (x : spec_float) : option Z :=
  match x with
  | S754_zero _ => Some 0%Z
  | S754_finite s m e =>
      let v := cond_Zopp s (Zpos m) in
      Some (if (0 <=? e)%Z then v * 2 ^ e else - ((- v) / 2 ^ (- e)))%Z
  | S754_infinity _ | S754_nan => None
  end.

(** The integer part of [(-1)^s * m * 2^e], rounding toward zero. *)
Definition sf_trunc (x : spec_float) : option Z :=
  match x with
  | S754_zero _ => Some 0%Z
  | S754_finite s m e =>
      Some (cond_Zopp s (if (0 <=? e)%Z then Zpos m * 2 ^ e
                         else Zpos m / 2 ^ (- e)))%Z
  | S754_infinity _ | S754_nan => None
  end.

(** An integer as the number it is, not rounded to 53 bits. *)
Definition sf_exact (z : Z) : spec_float :=
  match z with
  | Z0 => S754_zero false
  | Zpos m => S754_finite false m 0
  | Zneg m => S754_finite true m 0
  end.

(** The sign bit, read off the IEEE representation ([npy_signbit]). *)
Definition signbit (x : float) : bool := sf_signbit (Prim2SF x).

(** Neither NaN nor an infinity ([math.isfinite]). *)
Definition finite (x : float) : bool := sf_finite (Prim2SF x).

(** [ceil] of a binary64 value ([npy_ceil]), when it is an integer. *)
Definition ceil (x : float) : option Z := sf_ceil (Prim2SF x).

(** [int(x)] of a binary64 value, when it has one. *)
Definition trunc (x : float) : option Z := sf_trunc (Prim2SF x).

(** Conversion of an array index to binary64, the C cast [(double)i];
    indices are below [2^63]. *)
Definition of_index (i : nat) : float :=
  of_uint63 (Uint63.of_Z (Z.of_nat i)).

(** Conversion of an integer to the nearest binary64 value, ties to even
    ([float(n)], the C cast of an [int64]). *)
Definition of_Z (z : Z) : float :=
  if ((0 <=? z) && (z <? 2 ^ 63))%Z then of_uint63 (Uint63.of_Z z)
  else if ((- 2 ^ 63 <? z) && (z <? 0))%Z
       then (- of_uint63 (Uint63.of_Z (- z)))%float
       else SF2Prim (binary_normalize prec emax z 0 false).

End F64.

(** ** The 64-bit integers of NumPy *)

Module Int64.

Definition in_range (z : Z) : bool := ((- 2 ^ 63 <=? z) && (z <? 2 ^ 63))%Z.

(** Arithmetic on [int64] wraps around. *)
Definition wrap (z : Z) : Z := ((z + 2 ^ 63) mod 2 ^ 64 - 2 ^ 63)%Z.

(** An integer within the range. *)
Record t : Set := mk { val : Z; ok : Is_true (in_range val) }.

End Int64.

(** ** Python: scalars, their arithmetic, exceptions, [range], [for] *)

Module Py.

(** The exception classes the cells can raise. *)
Inductive exn : Set :=
| ZeroDivisionError   (* division by zero *)
| ValueError          (* arange: no length, array is too big; int(nan) *)
| IndexError          (* index out of bounds *)
| OverflowError       (* a number that does not fit an int64 *)
| MemoryError.        (* no room for an array *)

(** A value, a raised exception, or an operation the model leaves open. *)
Inductive outcome (A : Type) : Type :=
| Ok (a : A)
| Raise (e : exn)
| Unspecified.
Global Arguments Ok {A} a.
Global Arguments Raise {A} e.
Global Arguments Unspecified {A}.

Global Instance outcome_ret : MRet outcome := fun A a => Ok a.
Global Instance outcome_bind : MBind outcome := fun A B f m =>
  match m with
  | Ok a => f a
  | Raise e => Raise e
  | Unspecified => Unspecified
  end.

(** A number at run time: a Python int (unbounded) or NumPy [int64], a
    Python float or NumPy [float64]. *)
Inductive value : Set :=
| Int (n : Z)
| Float (x : float).

(** A literal of the parameter block. *)
Inductive scalar : Set :=
| PyInt (n : Int64.t)
| PyFloat (x : float).

Definition value_of (s : scalar) : value :=
  match s with
  | PyInt n => Int (Int64.val n)
  | PyFloat x => Float x
  end.

(** The operand of a mixed operation, as a float. *)
Definition as_float (v : value) : float :=
  match v with
  | Int n => F64.of_Z n
  | Float x => x
  end.

(** [a * b], [a + b], [a - b] of two Python scalars: exact on ints, in
    binary64 as soon as one is a float. *)
Definition mul (a b : value) : value :=
  match a, b with
  | Int x, Int y => Int (x * y)
  | _, _ => Float (as_float a * as_float b)
  end.

Definition add (a b : value) : value :=
  match a, b with
  | Int x, Int y => Int (x + y)
  | _, _ => Float (as_float a + as_float b)
  end.

Definition sub (a b : value) : value :=
  match a, b with
  | Int x, Int y => Int (x - y)
  | _, _ => Float (as_float a - as_float b)
  end.

(** [v == 0], [0 < v], [v < 0], [0 <= v], [v <= 0]. *)
Definition is_zero (v : value) : bool :=
  match v with
  | Int n => (n =? 0)%Z
  | Float x => (x =? 0)%float
  end.

Definition pos (v : value) : bool :=
  match v with
  | Int n => (0 <? n)%Z
  | Float x => (0 <? x)%float
  end.

Definition neg (v : value) : bool :=
  match v with
  | Int n => (n <? 0)%Z
  | Float x => (x <? 0)%float
  end.


Definition nonpos (v : value) : bool :=
  match v with
  | Int n => (n <=? 0)%Z
  | Float x => (x <=? 0)%float
  end.

(** The float [a / b] as the IEEE value it is.  True division raises on a
    zero divisor; the quotient of two ints is rounded once, from the exact
    quotient; a mixed quotient is the quotient of the two floats. *)
Definition quotient (a b : value) : spec_float :=
  match a, b with
  | Int x, Int y => SF64div (F64.sf_exact x) (F64.sf_exact y)
  | _, _ => Prim2SF (as_float a / as_float b)
  end.

Definition truediv (a b : value) : outcome spec_float :=
  if is_zero b then Raise ZeroDivisionError else Ok (quotient a b).

(** [range(n)] for a Python integer [n]: empty when [n <= 0]. *)
Definition range (n : Z) : list nat := seq 0 (Z.to_nat n).

(** [for i in l: s = body(s, i)], stopping at the first failure. *)
Fixpoint for_each {S : Type} (body : S → nat → outcome S) (l : list nat) (s : S)
  : outcome S :=
  match l with
  | [] => Ok s
  | i :: l' => s' ← body s i; for_each body l' s'
  end.

End Py.
Export Py.
Coercion value_of : scalar >-> value.

(** ** NumPy: scalars, [arange], [empty_like], item access *)

Module Np.

Inductive dtype : Set := int64 | float64.

(** The type of [arange(start, stop, step)]: [int64] when all three are
    ints. *)
Definition result_type (start stop step : value) : dtype :=
  match start, stop, step with
  | Int _, Int _, Int _ => int64
  | _, _, _ => float64
  end.

(** An operation with a NumPy scalar for an operand: on two ints it wraps
    around in [int64], otherwise it is done in [float64]. *)
Definition arith (fi : Z → Z → Z) (ff : float → float → float) (a b : value)
  : value :=
  match a, b with
  | Int x, Int y => Int (Int64.wrap (fi x y))
  | _, _ => Float (ff (as_float a) (as_float b))
  end.

Definition add : value → value → value := arith Z.add PrimFloat.add.
Definition sub : value → value → value := arith Z.sub PrimFloat.sub.
Definition mul : value → value → value := arith Z.mul PrimFloat.mul.

(** [t * y] for a Python scalar [t] and a NumPy scalar [y].  A Python int
    beyond [int64] does not combine with an [int64] as an [int64]. *)
Definition mul_py (t y : value) : outcome value :=
  match t, y with
  | Int n, Int _ => if Int64.in_range n then Ok (mul t y) else Unspecified
  | _, _ => Ok (mul t y)
  end.

(** Where the stored value comes from: a Python scalar or a NumPy one. *)
Inductive origin : Set := python | numpy.

(** The conversion of a value to the type of the array it is stored in.
    Into [int64] a float is truncated toward zero, like [int(x)]; a Python
    float that has no [int64] raises: [int(nan)] is a [ValueError], an
    infinity or an integer beyond [int64] an [OverflowError]. *)
Definition cast (d : dtype) (o : origin) (v : value) : outcome value :=
  match d, v with
  | float64, Float x => Ok (Float x)
  | float64, Int n => Ok (Float (F64.of_Z n))
  | int64, Int n => if Int64.in_range n then Ok (Int n) else Raise OverflowError
  | int64, Float x =>
      match F64.trunc x, o with
      | Some n, python =>
          if Int64.in_range n then Ok (Int n) else Raise OverflowError
      | Some n, numpy => if Int64.in_range n then Ok (Int n) else Unspecified
      | None, python =>
          if (x =? x)%float then Raise OverflowError else Raise ValueError
      | None, numpy => Unspecified
      end
  end.

(** The machine the notebook runs on: what matters of it is how many cells
    of 8 bytes its allocator can still provide.  Room for [2^20] cells
    (8 MiB) is taken for granted; the rest is the machine's. *)
Record machine : Set := mkMachine { spare : nat }.

Definition room (m : machine) : Z := 2 ^ 20 + Z.of_nat (spare m).

(** NumPy refuses an array whose size in bytes is no index
    ("array is too big"). *)
Definition max_cells : Z := 2 ^ 60.

(** The allocation of an array of [n] cells while [held] cells are in
    use. *)
Definition alloc (m : machine) (held n : Z) : outcome unit :=
  if (max_cells <=? n)%Z then Raise ValueError
  else if (held + n <=? room m)%Z then Ok tt
  else Raise MemoryError.

(** An array under construction: its type and its cells, [None] for a
    cell that was allocated but never written. *)
Record ndarray : Set := mkArray {
  dtype_of : dtype;
  cells : list (option value)
}.

(** [len(a)]. *)
Definition len (a : ndarray) : Z := Z.of_nat (length (cells a)).

(** [_arange_safe_ceil_to_intp]: NaN gives "arange: cannot compute
    length", a ceiling outside the index type gives "Maximum allowed size
    exceeded"; both are [ValueError].  C compares in double, where the
    upper bound rounds to [2^63]; the cast of [2^63] to the index type
    gives [-2^63]. *)
Definition safe_ceil_to_intp (value : spec_float) : outcome Z :=
  match F64.sf_ceil value with
  | None => Raise ValueError
  | Some c =>
      if ((- 2 ^ 63 <=? c) && (c <=? 2 ^ 63))%Z
      then Ok (if (c =? 2 ^ 63)%Z then - 2 ^ 63 else c)%Z
      else Raise ValueError
  end.

(** [_calc_length]: the number of points of [arange(start, stop, step)].
    A quotient that is zero although [stop - start] is not (underflow, or
    an infinite step) counts as one point when positive. *)
Definition arange_length (start stop step : value) : outcome Z :=
  let next := Py.sub stop start in
  value ← Py.truediv next step;
  len ← safe_ceil_to_intp value;
  Ok (if F64.sf_zero value && negb (Py.is_zero next)
      then (if F64.sf_signbit value then 0 else 1)%Z
      else len).

(** The index [i] as a number of the array's type. *)
Definition index (d : dtype) (i : nat) : value :=
  match d with
  | int64 => Int (Z.of_nat i)
  | float64 => Float (F64.of_index i)
  end.

(** The fill loop: cell 0 is [start], cell 1 is [start + step], both
    converted to the array's type; cell [i >= 2] is [c0 + i * (c1 - c0)],
    computed in that type from the first two cells. *)
Definition arange_item (d : dtype) (c0 c1 : value) (i : nat) : value :=
  match i with
  | 0 => c0
  | 1 => c1
  | _ => add c0 (mul (index d i) (sub c1 c0))
  end.

Definition arange (m : machine) (start stop step : value) : outcome ndarray :=
  let d := result_type start stop step in
  n ← arange_length start stop step;
  if (n <=? 0)%Z then Ok {| dtype_of := d; cells := [] |}
  else
    _ ← alloc m 0 n;
    c0 ← cast d python start;
    c1 ← (if (n =? 1)%Z then Ok c0 else cast d python (Py.add start step));
    Ok {| dtype_of := d;
          cells := (λ i, Some (arange_item d c0 c1 i)) <$> seq 0 (Z.to_nat n) |}.

(** [np.empty_like(a)]: same type and length, nothing written; [a] is
    still held. *)
Definition empty_like (m : machine) (a : ndarray) : outcome ndarray :=
  _ ← alloc m (len a) (len a);
  Ok {| dtype_of := dtype_of a; cells := replicate (length (cells a)) None |}.

(** What sits in never-written memory: any number per cell. *)
Record junk : Type := mkJunk { junk_int : nat → Z; junk_float : nat → float }.

Definition junk_value (g : junk) (d : dtype) (i : nat) : value :=
  match d with
  | int64 => Int (Int64.wrap (junk_int g i))
  | float64 => Float (junk_float g i)
  end.

(** [a[i]], for a non-negative index. *)
Definition getitem (g : junk) (a : ndarray) (i : nat) : outcome value :=
  match cells a !! i with
  | Some (Some v) => Ok v
  | Some None => Ok (junk_value g (dtype_of a) i)
  | None => Raise IndexError
  end.

(** [a[i] = v], for a non-negative index: the index is checked, then the
    value converted. *)
Definition setitem (o : origin) (a : ndarray) (i : nat) (v : value)
  : outcome ndarray :=
  if decide (i < length (cells a)) then
    v' ← cast (dtype_of a) o v;
    Ok {| dtype_of := dtype_of a; cells := <[i := Some v']> (cells a) |}
  else Raise IndexError.

(** The values an array holds, unwritten cells showing their junk. *)
Definition contents (g : junk) (a : ndarray) : list value :=
  imap (λ i c, default (junk_value g (dtype_of a) i) c) (cells a).

(** [a == b] and [a < b] for two NumPy scalars: exact on two [int64],
    in [float64] otherwise. *)
Definition equal (a b : value) : bool :=
  match a, b with
  | Int x, Int y => (x =? y)%Z
  | _, _ => (as_float a =? as_float b)%float
  end.

Definition less (a b : value) : bool :=
  match a, b with
  | Int x, Int y => (x <? y)%Z
  | _, _ => (as_float a <? as_float b)%float
  end.

(** [np.isfinite(v)] and [np.isnan(v)]. *)
Definition isfinite (v : value) : bool :=
  match v with
  | Int _ => true
  | Float x => F64.finite x
  end.

Definition isnan (v : value) : bool :=
  match v with
  | Int _ => false
  | Float x => negb (x =? x)%float
  end.

End Np.

(** ** The notebook cells *)

Record params : Set := mkParams {
  M : scalar;     (* max supported population *)
  k : scalar;     (* speed of growth *)
  dt : scalar;    (* time step *)
  Tmax : scalar;  (* max time *)
  y0 : scalar     (* initial population *)
}.

(** A Python int literal. *)
Abbreviation py_int n := (PyInt (Int64.mk n I)).

(** One iteration of the loop body, in Python's order of evaluation:
    [y[i]], [dt * k], [y[i]], their product, [M - y[i]], the product, the
    sum, the store. *)
Definition loop_body (g : Np.junk) (p : params) (y : Np.ndarray) (i : nat)
  : outcome Np.ndarray :=
  a ← Np.getitem g y i;
  let t1 := Py.mul (dt p) (k p) in
  b ← Np.getitem g y i;
  t2 ← Np.mul_py t1 b;
  c ← Np.getitem g y i;
  let t3 := Np.sub (M p) c in
  Np.setitem Np.numpy y (i + 1) (Np.add a (Np.mul t2 t3)).

(** The integration cell; it leaves [times] and [y] behind. *)
Definition run (m : Np.machine) (g : Np.junk) (p : params)
  : outcome (Np.ndarray * Np.ndarray) :=
  times ← Np.arange m (Int 0) (Tmax p) (dt p);
  y ← Np.empty_like m times;
  y ← Np.setitem Np.python y 0 (y0 p);
  y ← for_each (loop_body g p) (range (Np.len times - 1)) y;
  Ok (times, y).

(** The time grid and the trajectory as the plotting cell receives them. *)
Definition integrate (m : Np.machine) (g : Np.junk) (p : params)
  : outcome (list value * list value) :=
  '(times, y) ← run m g p;
  Ok (Np.contents g times, Np.contents g y).

(** The parameter block of the notebook. *)
Definition notebook : params :=
  {| M := py_int 100; k := PyFloat 0.01; dt := PyFloat 0.1;
     Tmax := py_int 10; y0 := PyFloat 2.0 |}.

(** ** The loop as the iteration of one step *)

(** The type of the grid, and so of [y]: [int64] when [Tmax] and [dt] are
    both ints. *)
Definition grid_type (p : params) : Np.dtype :=
  Np.result_type (Int 0) (Tmax p) (dt p).

(** The right-hand side of the assignment in the loop, for [y[i] = v]. *)
Definition rhs (p : params) (v : value) : outcome value :=
  t2 ← Np.mul_py (Py.mul (dt p) (k p)) v;
  Ok (Np.add v (Np.mul t2 (Np.sub (M p) v))).

(** The value iteration [i] stores in [y[i+1]], for [y[i] = v] in an array
    of type [d]. *)
Definition step (p : params) (d : Np.dtype) (v : value) : outcome value :=
  r ← rhs p v;
  Np.cast d Np.numpy r.

(** The values [v], [f v], ... after [n] steps, up to the first step that
    fails; the closed form the loop is shown to compute. *)
Fixpoint steps (f : value → outcome value) (n : nat) (v : value)
  : outcome (list value) :=
  match n with
  | 0 => Ok [v]
  | S n' => v' ← f v; l ← steps f n' v'; Ok (v :: l)
  end.

(** In a [float64] array the step is a function on binary64: Python
    evaluates [dt * k * v * (M - v)] from the left, the product [dt * k]
    and [M] entering as floats. *)
Definition rate (p : params) : float := Py.as_float (Py.mul (dt p) (k p)).
Definition capacity (p : params) : float := Py.as_float (M p).

Definition euler_step (p : params) (v : float) : float :=
  (v + rate p * v * (capacity p - v))%float.

(** The first [n] points of the orbit of [f] from [v]. *)
Fixpoint orbit {A} (f : A → A) (n : nat) (v : A) : list A :=
  match n with
  | 0 => []
  | S n' => v :: orbit f n' (f v)
  end.

(** A number as a NumPy scalar of type [d], for the numbers that have
    one. *)
Definition to_dtype (d : Np.dtype) (v : value) : value :=
  match d with
  | Np.int64 => v
  | Np.float64 => Float (Py.as_float v)
  end.

(** The grid of [n] points: what the fill loop of [arange] makes of the
    first two cells, [0] and [0 + dt]. *)
Definition grid (p : params) (n : nat) : list value :=
  let d := grid_type p in
  Np.arange_item d (to_dtype d (Int 0)) (to_dtype d (Py.add (Int 0) (dt p)))
  <$> seq 0 n.

(** The cell without its arrays: what it is shown to return, whatever the
    fresh memory held. *)
Definition closed_form (m : Np.machine) (p : params)
  : outcome (list value * list value) :=
  let d := grid_type p in
  n ← Np.arange_length (Int 0) (Tmax p) (dt p);
  if (n <=? 0)%Z then Raise IndexError
  else
    _ ← Np.alloc m 0 n;
    _ ← Np.alloc m n n;
    v0 ← Np.cast d Np.python (y0 p);
    ys ← steps (step p d) (Z.to_nat n - 1) v0;
    Ok (grid p (Z.to_nat n), ys).

(** The array after [y[0] = y0] and the first [j] iterations of the loop,
    for a grid [times]. *)
Definition loop_prefix (m : Np.machine) (g : Np.junk) (p : params)
  (times : Np.ndarray) (j : nat) : outcome Np.ndarray :=
  y ← Np.empty_like m times;
  y ← Np.setitem Np.python y 0 (y0 p);
  for_each (loop_body g p) (seq 0 j) y.



(** The exception a grid that cannot be built or indexed ends in: the
    length is not an index ([ValueError]) or no cell 0 exists. *)
Definition empty_grid_error (q : spec_float) : exn :=
  match F64.sf_ceil q with
  | Some c =>
      if ((- 2 ^ 63 <=? c) && (c <=? 2 ^ 63))%Z then IndexError
      else ValueError
  | None => ValueError
  end.

(** A value that is a NaN or carries the sign [s], in each of the two
    readings a division can take of it. *)
Definition has_sign (s : bool) (v : value) : Prop :=
  match v with
  | Int n => F64.signed s (F64.sf_exact n) ∧ F64.signed s (Prim2SF (F64.of_Z n))
  | Float x => F64.signed s (Prim2SF x)
  end.

(** [r] holds between every two neighbours of a list. *)
Fixpoint chain (r : value → value → bool) (l : list value) : bool :=
  match l with
  | x :: (y :: _) as l' => r x y && chain r l'
  | _ => true
  end.

(** A machine with no room to spare. *)
Definition small : Np.machine := {| Np.spare := 0 |}.

(** Never-written memory that happens to hold zeros, or ones. *)
Definition zeros : Np.junk :=
  {| Np.junk_int := λ _, 0%Z; Np.junk_float := λ _, 0%float |}.
Definition ones : Np.junk :=
  {| Np.junk_int := λ _, 1%Z; Np.junk_float := λ _, 1%float |}.

(** Configurations other than the notebook's own. *)

(** An initial population above the capacity [M]. *)
Definition above_capacity : params :=
  {| M := py_int 100; k := PyFloat 0.01; dt := PyFloat 0.1;
     Tmax := py_int 5; y0 := py_int 150 |}.

(** A horizon that is itself the rounded product [3 * dt]. *)
Definition horizon_on_grid : params :=
  {| M := py_int 100; k := PyFloat 0.01; dt := PyFloat 0.1;
     Tmax := PyFloat 0.30000000000000004; y0 := PyFloat 2.0 |}.


(** A zero horizon. *)
Definition no_horizon : params :=
  {| M := py_int 100; k := PyFloat 0.01; dt := PyFloat 0.1;
     Tmax := py_int 0; y0 := PyFloat 2.0 |}.



(** A negative horizon. *)
Definition negative_horizon : params :=
  {| M := py_int 100; k := PyFloat 0.01; dt := PyFloat 0.1;
     Tmax := py_int (-1); y0 := PyFloat 2.0 |}.

(** A start at the equilibrium [0], and one at the equilibrium [M]. *)
Definition at_rest : params :=
  {| M := py_int 100; k := PyFloat 0.01; dt := PyFloat 0.1;
     Tmax := py_int 1; y0 := PyFloat 0 |}.
Definition at_capacity : params :=
  {| M := py_int 100; k := PyFloat 0.01; dt := PyFloat 0.1;
     Tmax := py_int 1; y0 := py_int 100 |}.

(** A start at a capacity so large that [dt * k * y0] overflows. *)
Definition huge_capacity : params :=
  {| M := PyFloat 1e200; k := PyFloat 1e200; dt := PyFloat 0.1;
     Tmax := PyFloat 0.5; y0 := PyFloat 1e200 |}.

(** Whole time steps, [dt = 1] with [Tmax = 10]: the grid and [y] are
    [int64] arrays. *)
Definition whole_steps : params :=
  {| M := py_int 100; k := PyFloat 0.01; dt := py_int 1;
     Tmax := py_int 10; y0 := py_int 50 |}.



(** ** The plotting cell

<<
    plt.plot(times, y)
    plt.xlabel("Time")
    plt.ylabel("Population");
>>
*)

Module Plt.

(** The current axes: the lines drawn so far, each a list of points, and
    the two axis labels. *)
Record axes : Set := mkAxes {
  lines : list (list (value * value));
  xlabel : string;
  ylabel : string
}.

(** The axes [pyplot] creates on first use. *)
Definition fresh : axes :=
  {| lines := []; xlabel := EmptyString; ylabel := EmptyString |}.

(** [plt.plot(x, y)]: one more line through the points [(x[i], y[i])];
    "x and y must have same first dimension" otherwise. *)
Definition plot (x y : list value) (ax : axes) : outcome axes :=
  if decide (length x = length y)
  then Ok {| lines := lines ax ++ [zip x y]; xlabel := xlabel ax; ylabel := ylabel ax |}
  else Raise ValueError.

Definition set_xlabel (label : string) (ax : axes) : axes :=
  {| lines := lines ax; xlabel := label; ylabel := ylabel ax |}.

Definition set_ylabel (label : string) (ax : axes) : axes :=
  {| lines := lines ax; xlabel := xlabel ax; ylabel := label |}.

End Plt.

(** The plotting cell, on what the integration cell left behind. *)
Definition plot_cell (times y : list value) : outcome Plt.axes :=
  ax ← Plt.plot times y Plt.fresh;
  Ok (Plt.set_ylabel "Population" (Plt.set_xlabel "Time" ax)).

(** The integration cell followed by the plotting cell. *)
Definition integrate_and_plot (m : Np.machine) (g : Np.junk) (p : params)
  : outcome Plt.axes :=
  '(times, y) ← integrate m g p;
  plot_cell times y.

(** A step so long that the population reaches [M] within the horizon;
    the step is the float [1.0]. *)
Definition fast_growth : params :=
  {| M := py_int 100; k := PyFloat 0.01; dt := PyFloat 1;
     Tmax := py_int 10; y0 := py_int 50 |}.

(** No growth at all. *)
Definition no_growth : params :=
  {| M := py_int 100; k := py_int 0; dt := PyFloat 0.1;
     Tmax := py_int 1; y0 := PyFloat 2.0 |}.

(** The notebook's parameters over four times the horizon. *)
Definition long_run : params :=
  {| M := py_int 100; k := PyFloat 0.01; dt := PyFloat 0.1;
     Tmax := py_int 40; y0 := PyFloat 2.0 |}.

(** A rate at which the population overshoots [M] and oscillates, with
    the float step [1.0] and with the int step [1]. *)
Definition two_cycle : params :=
  {| M := py_int 100; k := PyFloat 0.022; dt := PyFloat 1;
     Tmax := py_int 60; y0 := PyFloat 2.0 |}.
Definition two_cycle_whole : params :=
  {| M := py_int 100; k := PyFloat 0.022; dt := py_int 1;
     Tmax := py_int 60; y0 := PyFloat 2.0 |}.

(** [fast_growth] taken up again from its third value, and [whole_steps]
    from its third value. *)
Definition restarted : params :=
  {| M := py_int 100; k := PyFloat 0.01; dt := PyFloat 1;
     Tmax := py_int 5; y0 := PyFloat 93.75 |}.
Definition restarted_whole : params :=
  {| M := py_int 100; k := PyFloat 0.01; dt := py_int 1;
     Tmax := py_int 5; y0 := py_int 93 |}.

(** [whole_steps] over a shorter horizon. *)
Definition whole_steps_short : params :=
  {| M := py_int 100; k := PyFloat 0.01; dt := py_int 1;
     Tmax := py_int 3; y0 := py_int 50 |}.


(** A start that is no number. *)
Definition nan_start : params :=
  {| M := py_int 100; k := PyFloat 0.01; dt := PyFloat 0.1;
     Tmax := PyFloat 0.5; y0 := PyFloat nan |}.

(** A horizon that never comes, and a step that is no number. *)
Definition endless : params :=
  {| M := py_int 100; k := PyFloat 0.01; dt := PyFloat 0.1;
     Tmax := PyFloat infinity; y0 := PyFloat 2.0 |}.
Definition nan_step : params :=
  {| M := py_int 100; k := PyFloat 0.01; dt := PyFloat nan;
     Tmax := py_int 10; y0 := PyFloat 2.0 |}.

(** ** The definitions on small inputs *)

Example ceil_examples :
  F64.ceil 2.5 = Some 3%Z ∧ F64.ceil (-2.5) = Some (-2)%Z
  ∧ F64.ceil 100 = Some 100%Z ∧ F64.ceil 3.0000000000000004 = Some 4%Z
  ∧ F64.ceil (-0) = Some 0%Z ∧ F64.ceil 1e-300 = Some 1%Z
  ∧ F64.ceil infinity = None ∧ F64.ceil nan = None.
Proof. by vm_compute. Qed.

Example trunc_examples :
  F64.trunc 2.5 = Some 2%Z ∧ F64.trunc (-2.5) = Some (-2)%Z
  ∧ F64.trunc 93.75 = Some 93%Z ∧ F64.trunc 99.99 = Some 99%Z
  ∧ F64.trunc (-0) = Some 0%Z ∧ F64.trunc 1e19 = Some (10 ^ 19)%Z
  ∧ F64.trunc infinity = None ∧ F64.trunc nan = None.
Proof. by vm_compute. Qed.

Example of_Z_examples :
  F64.of_Z 100 = 100%float ∧ F64.of_Z (-3) = (-3)%float
  ∧ F64.of_Z (2 ^ 53 + 1) = 9007199254740992%float
  ∧ F64.of_Z (- 2 ^ 63) = (-9223372036854775808)%float
  ∧ F64.of_Z (2 ^ 100) = 1267650600228229401496703205376%float.
Proof. by vm_compute. Qed.

Example wrap_examples :
  Int64.wrap 5 = 5%Z ∧ Int64.wrap (2 ^ 63) = (- 2 ^ 63)%Z
  ∧ Int64.wrap (- 2 ^ 63 - 1) = (2 ^ 63 - 1)%Z ∧ Int64.wrap (2 ^ 64 + 7) = 7%Z.
Proof. by vm_compute. Qed.

Example truediv_examples :
  Py.truediv (Int 10) (Int 4) = Ok (Prim2SF 2.5)
  ∧ Py.truediv (Int 1) (Int 3) = Ok (Prim2SF 0.33333333333333331)
  ∧ Py.truediv (Int 10) (Float 0.1) = Ok (Prim2SF 100)
  ∧ Py.truediv (Float 1) (Int 0) = Raise ZeroDivisionError
  ∧ Py.truediv (Int 1) (Float (-0)) = Raise ZeroDivisionError.
Proof. by vm_compute. Qed.

Example cast_examples :
  Np.cast Np.int64 Np.python (Float 2.5) = Ok (Int 2)
  ∧ Np.cast Np.int64 Np.numpy (Float 93.75) = Ok (Int 93)
  ∧ Np.cast Np.int64 Np.numpy (Float (-0.5)) = Ok (Int 0)
  ∧ Np.cast Np.int64 Np.python (Float nan) = Raise ValueError
  ∧ Np.cast Np.int64 Np.python (Float infinity) = Raise OverflowError
  ∧ Np.cast Np.int64 Np.python (Float 1e19) = Raise OverflowError
  ∧ Np.cast Np.float64 Np.python (Int 150) = Ok (Float 150)
  ∧ Np.cast Np.float64 Np.numpy (Float nan) = Ok (Float nan).
Proof. by vm_compute. Qed.

Example arange_quarters :
  Np.arange small (Int 0) (Int 1) (Float 0.25)
  = Ok {| Np.dtype_of := Np.float64;
          Np.cells := Some <$> [Float 0; Float 0.25; Float 0.5; Float 0.75] |}.
Proof. by vm_compute. Qed.

Example arange_thirds :
  Np.arange small (Int 0) (Int 1) (Float 0.3)
  = Ok {| Np.dtype_of := Np.float64;
          Np.cells := Some <$> [Float 0; Float 0.3; Float 0.6;
                                Float 0.8999999999999999] |}.
Proof. by vm_compute. Qed.

Example arange_whole :
  Np.arange small (Int 0) (Int 10) (Int 3)
  = Ok {| Np.dtype_of := Np.int64;
          Np.cells := Some <$> [Int 0; Int 3; Int 6; Int 9] |}
  ∧ Np.arange small (Int 0) (Float 10) (Int 3)
    = Ok {| Np.dtype_of := Np.float64;
            Np.cells := Some <$> [Float 0; Float 3; Float 6; Float 9] |}.
Proof. by vm_compute. Qed.

Example arange_degenerate :
  Np.arange small (Int 0) (Int 10) (Int 0) = Raise ZeroDivisionError
  ∧ Np.arange small (Int 0) (Int 10) (Int (-1))
    = Ok {| Np.dtype_of := Np.int64; Np.cells := [] |}
  ∧ Np.arange small (Int 0) (Int (-3)) (Int (-1))
    = Ok {| Np.dtype_of := Np.int64;
            Np.cells := Some <$> [Int 0; Int (-1); Int (-2)] |}
  ∧ Np.arange small (Int 0) (Int 10) (Float infinity)
    = Ok {| Np.dtype_of := Np.float64; Np.cells := [Some (Float 0)] |}
  ∧ Np.arange small (Int 0) (Int 10) (Float 1e-300) = Raise ValueError
  ∧ Np.arange small (Int 0) (Float nan) (Int 1) = Raise ValueError.
Proof. by vm_compute. Qed.

(** The limits of [arange]: no room for [1e18] cells, an array of
    [1.2e18] cells is too big, a quotient of [2^63] gives no cell. *)
Example arange_limits :
  Np.arange small (Int 0) (Int 10) (Float 1e-17) = Raise MemoryError
  ∧ Np.arange small (Int 0) (Int 12) (Float 1e-17) = Raise ValueError
  ∧ Np.arange small (Int 0) (Float 9223372036854775808) (Float 1)
    = Ok {| Np.dtype_of := Np.float64; Np.cells := [] |}
  ∧ Np.arange small (Int 0) (Float 9223372036854777856) (Float 1)
    = Raise ValueError.
Proof. by vm_compute. Qed.

Example notebook_first_steps :
  take 3 (orbit (euler_step notebook) 100 2%float)
  = [2; 2.1960000000000002; 2.4107775840000003]%float.
Proof. by vm_compute. Qed.

Example whole_steps_run :
  integrate small zeros whole_steps
  = Ok (Int <$> [0; 1; 2; 3; 4; 5; 6; 7; 8; 9]%Z,
        Int <$> [50; 75; 93; 99; 99; 99; 99; 99; 99; 99]%Z).
Proof. by vm_compute. Qed.

(** [sf_ceil] is the ceiling: the least integer not below the value. *)
Lemma sf_ceil_finite_spec s m e c :
  F64.sf_ceil (S754_finite s m e) = Some c →
  let v := cond_Zopp s (Zpos m) in
  if (0 <=? e)%Z then c = (v * 2 ^ e)%Z
  else ((c - 1) * 2 ^ (- e) < v ≤ c * 2 ^ (- e))%Z.
Proof.
  intros [= <-] v. fold v. destruct (0 <=? e)%Z eqn:He; [done|].
  apply Z.leb_gt in He.
  pose proof (Z.pow_pos_nonneg 2 (- e)) as Hd.
  pose proof (Z.div_mod (- v) (2 ^ (- e))) as Hdiv.
  pose proof (Z.mod_pos_bound (- v) (2 ^ (- e))) as Hmod.
  nia.
Qed.

(** [sf_trunc] rounds toward zero: the integer of the same sign next to
    the value on the side of zero. *)
Lemma sf_trunc_finite_spec s m e z :
  F64.sf_trunc (S754_finite s m e) = Some z →
  if (0 <=? e)%Z then z = (cond_Zopp s (Zpos m) * 2 ^ e)%Z
  else (Z.abs z * 2 ^ (- e) ≤ Zpos m < (Z.abs z + 1) * 2 ^ (- e))%Z
       ∧ z = cond_Zopp s (Z.abs z).
Proof.
  intros [= <-]. destruct (0 <=? e)%Z eqn:He.
  - by destruct s; cbn [cond_Zopp]; lia.
  - apply Z.leb_gt in He.
    pose proof (Z.pow_pos_nonneg 2 (- e)) as Hd.
    pose proof (Z.div_mod (Zpos m) (2 ^ (- e))) as Hdiv.
    pose proof (Z.mod_pos_bound (Zpos m) (2 ^ (- e))) as Hmod.
    pose proof (Z.div_pos (Zpos m) (2 ^ (- e))) as Hq.
    assert (Z.abs (cond_Zopp s (Z.pos m / 2 ^ (- e))) = Z.pos m / 2 ^ (- e))%Z
      as -> by (destruct s; cbn [cond_Zopp]; lia).
    split; [nia|done].
Qed.








Lemma val_in_range (n : Int64.t) : Int64.in_range (Int64.val n) = true.
Proof. apply Is_true_eq_true, Int64.ok. Qed.

Section orbit.
Context {A : Type} (f : A → A).

Lemma length_orbit n v : length (orbit f n v) = n.
Proof. revert v; induction n as [|n IH]; intros v; simpl; [done|]. by rewrite IH. Qed.

Lemma orbit_lookup n v i : i < n → orbit f n v !! i = Some (Nat.iter i f v).
Proof.
  revert v i; induction n as [|n IH]; intros v [|i] Hi; simpl; try lia; [done|].
  rewrite IH by lia. f_equal. clear. induction i as [|i IHi]; simpl; [done|].
  by rewrite IHi.
Qed.

Lemma orbit_invariant (P : A → Prop) n v :
  P v → (∀ x, P x → P (f x)) → Forall P (orbit f n v).
Proof.
  intros Hv Hstep. revert v Hv; induction n as [|n IH]; intros v Hv; simpl.
  - constructor.
  - constructor; [done|]. apply IH, Hstep, Hv.
Qed.
End orbit.

(** ** Iterating a step that can fail *)

Section steps.
Variable f : value → outcome value.

Lemma steps_length n v l : steps f n v = Ok l → length l = S n.
Proof.
  revert v l. induction n as [|n IH]; intros v l; cbn [steps].
  - by intros [= <-].
  - destruct (f v) as [v'| |]; [|done..]. cbn [mbind outcome_bind].
    destruct (steps f n v') as [l'| |] eqn:H; [|done..].
    intros [= <-]. cbn. by rewrite (IH _ _ H).
Qed.

Lemma steps_head n v l : steps f n v = Ok l → l !! 0 = Some v.
Proof.
  destruct n as [|n]; cbn [steps]; [by intros [= <-]|].
  destruct (f v) as [v'| |]; [|done..]. cbn [mbind outcome_bind].
  destruct (steps f n v') as [l'| |]; [|done..]. by intros [= <-].
Qed.

(** Each value is the step of the value before it. *)
Lemma steps_next n v l i :
  steps f n v = Ok l → i < n →
  ∃ a b, l !! i = Some a ∧ l !! S i = Some b ∧ f a = Ok b.
Proof.
  revert v l i. induction n as [|n IH]; intros v l i; [lia|]. cbn [steps].
  destruct (f v) as [v'| |] eqn:Hf; [|done..]. cbn [mbind outcome_bind].
  destruct (steps f n v') as [l'| |] eqn:H; [|done..].
  intros [= <-] Hi. destruct i as [|i].
  - exists v, v'. split; [done|]. split; [|done]. cbn. by apply (steps_head n).
  - destruct (IH _ _ i H) as (a & b & ? & ? & ?); [lia|]. by exists a, b.
Qed.

(** Fewer steps give the beginning of the same values. *)
Lemma steps_take n v l j :
  steps f n v = Ok l → j ≤ n → steps f j v = Ok (take (S j) l).
Proof.
  revert v l j. induction n as [|n IH]; intros v l j; cbn [steps].
  - intros [= <-] Hj. by replace j with 0 by lia.
  - destruct (f v) as [v'| |] eqn:Hf; [|done..]. cbn [mbind outcome_bind].
    destruct (steps f n v') as [l'| |] eqn:H; [|done..].
    intros [= <-] Hj. destruct j as [|j]; [done|]. cbn [steps]. rewrite Hf.
    cbn [mbind outcome_bind]. rewrite (IH _ _ j H) by lia. done.
Qed.

(** The values from index [i] on are the steps from the value at [i]. *)
Lemma steps_drop n v l i a :
  steps f n v = Ok l → l !! i = Some a → steps f (n - i) a = Ok (drop i l).
Proof.
  revert v l i. induction n as [|n IH]; intros v l i; cbn [steps].
  - intros [= <-] Hi. destruct i; [|done]. by injection Hi as <-.
  - destruct (f v) as [v'| |] eqn:Hf; [|done..]. cbn [mbind outcome_bind].
    destruct (steps f n v') as [l'| |] eqn:H; [|done..].
    intros [= <-] Hi. destruct i as [|i].
    + injection Hi as <-. cbn [steps Nat.sub drop]. rewrite Hf.
      cbn [mbind outcome_bind]. by rewrite H.
    + cbn in Hi. cbn [Nat.sub drop]. by apply (IH v').
Qed.

(** A property that the step preserves holds from the index where it
    first holds to the end. *)
Lemma steps_absorbing (P : value → Prop) n v l i j x y :
  (∀ a b, f a = Ok b → P a → P b) →
  steps f n v = Ok l →
  l !! i = Some x → P x → i ≤ j → l !! j = Some y → P y.
Proof.
  intros Hstep Hl Hx HP Hij Hy.
  pose proof (lookup_lt_Some _ _ _ Hy) as Hj.
  rewrite (steps_length _ _ _ Hl) in Hj.
  replace j with ((j - i) + i) in Hy, Hj by lia.
  revert y Hy Hj. induction (j - i) as [|d IH]; intros y Hy Hj.
  - cbn in Hy. congruence.
  - destruct (steps_next n v l (d + i) Hl) as (a & b & Ha & Hb & Hab); [lia|].
    cbn [Nat.add] in Hy. rewrite Hy in Hb. injection Hb as <-.
    apply (Hstep a y Hab). apply IH; [done|lia].
Qed.

Lemma steps_invariant (P : value → Prop) n v l :
  (∀ a b, f a = Ok b → P a → P b) → steps f n v = Ok l → P v → Forall P l.
Proof.
  intros Hstep Hl Hv. apply Forall_lookup. intros j y Hy.
  apply (steps_absorbing P n v l 0 j v y); try done; [|lia].
  by apply (steps_head n).
Qed.

End steps.

(** Two steps that agree return the same values. *)
Lemma steps_ext f f' n v : (∀ a, f a = f' a) → steps f n v = steps f' n v.
Proof.
  intros Hf. revert v. induction n as [|n IH]; intros v; cbn [steps]; [done|].
  rewrite Hf. destruct (f' v) as [v'| |]; [|done..]. cbn [mbind outcome_bind].
  by rewrite IH.
Qed.

(** ** The loop computes the steps *)

Section loop.
Variable g : Np.junk.
Variable p : params.

Lemma getitem_written d (pre : list value) v rest :
  Np.getitem g {| Np.dtype_of := d; Np.cells := (Some <$> pre) ++ Some v :: rest |}
    (length pre) = Ok v.
Proof.
  unfold Np.getitem. cbn [Np.cells].
  rewrite (list_lookup_middle _ _ _ (length pre)); [done|].
  by rewrite length_fmap.
Qed.

(** Iteration [i] reads the written cell [i] and, unless the step fails,
    writes cell [i + 1]. *)
Lemma loop_body_writes d (pre : list value) v c rest :
  loop_body g p
    {| Np.dtype_of := d; Np.cells := (Some <$> pre) ++ Some v :: c :: rest |}
    (length pre)
  = v' ← step p d v;
    Ok {| Np.dtype_of := d;
          Np.cells := (Some <$> pre) ++ Some v :: Some v' :: rest |}.
Proof.
  unfold loop_body. rewrite getitem_written. cbn [mbind outcome_bind].
  unfold step, rhs.
  destruct (Np.mul_py _ v) as [t2| |]; [|done..]. cbn [mbind outcome_bind].
  unfold Np.setitem. cbn [Np.cells Np.dtype_of]. rewrite decide_True.
  2:{ rewrite length_app, length_fmap. simpl. lia. }
  destruct (Np.cast d Np.numpy _) as [v'| |]; [|done..]. cbn [mbind outcome_bind].
  do 2 f_equal. rewrite insert_app_r_alt by (rewrite length_fmap; lia).
  rewrite length_fmap. replace (length pre + 1 - length pre) with 1 by lia.
  done.
Qed.

(** The loop invariant: with cells [0..i] written and the next [n] cells
    pending, [n] iterations from index [i] extend the written prefix by
    the steps from [y[i]] and leave every later cell alone; they fail
    where the first step fails. *)
Lemma loop_invariant d n (pre : list value) v pending rest :
  length pending = n →
  for_each (loop_body g p) (seq (length pre) n)
    {| Np.dtype_of := d; Np.cells := (Some <$> pre) ++ Some v :: pending ++ rest |}
  = l ← steps (step p d) n v;
    Ok {| Np.dtype_of := d; Np.cells := (Some <$> pre) ++ (Some <$> l) ++ rest |}.
Proof.
  revert pre v pending.
  induction n as [|n IH]; intros pre v pending Hlen.
  - destruct pending; [done|discriminate].
  - destruct pending as [|c pending]; [discriminate|].
    injection Hlen as Hlen. cbn [seq for_each steps].
    rewrite <- app_comm_cons, loop_body_writes.
    destruct (step p d v) as [v'| |]; [|done..]. cbn [mbind outcome_bind].
    specialize (IH (pre ++ [v]) v' pending Hlen).
    rewrite length_app, fmap_app in IH. simpl in IH.
    replace (length pre + 1) with (S (length pre)) in IH by lia.
    rewrite <- !app_assoc in IH. simpl in IH. rewrite IH.
    destruct (steps (step p d) n v') as [l| |]; [|done..].
    cbn [mbind outcome_bind]. by rewrite <- app_assoc.
Qed.

Lemma contents_written d (l : list value) :
  Np.contents g {| Np.dtype_of := d; Np.cells := Some <$> l |} = l.
Proof.
  unfold Np.contents. cbn [Np.cells]. apply list_eq; intros i.
  rewrite list_lookup_imap, list_lookup_fmap.
  by destruct (l !! i).
Qed.

End loop.

(** An array of no cell, or of a few cells, is always granted. *)
Lemma alloc_none m : Np.alloc m 0 0 = Ok tt.
Proof.
  unfold Np.alloc, Np.max_cells, Np.room.
  replace (2 ^ 60 <=? 0)%Z with false by done.
  destruct (Z.leb_spec (0 + 0) (2 ^ 20 + Z.of_nat (Np.spare m))); [done|lia].
Qed.

(** More room never turns a success into a failure. *)
Lemma alloc_mono m m' held n :
  (Np.room m ≤ Np.room m')%Z → Np.alloc m held n = Ok tt →
  Np.alloc m' held n = Ok tt.
Proof.
  unfold Np.alloc. intros Hr. destruct (Np.max_cells <=? n)%Z; [done|].
  destruct (Z.leb_spec (held + n) (Np.room m)); [|done]. intros _.
  destruct (Z.leb_spec (held + n) (Np.room m')); [done|lia].
Qed.

Lemma room_small m : (Np.room small ≤ Np.room m)%Z.
Proof. unfold Np.room, small. cbn [Np.spare]. lia. Qed.

Section cell.
Variable m : Np.machine.
Variable g : Np.junk.
Variable p : params.

(** The state after [j] iterations: cells [0..j] hold the steps from the
    stored [y0], the others were never written. *)
Lemma loop_prefix_spec times j :
  j < length (Np.cells times) →
  loop_prefix m g p times j =
    _ ← Np.alloc m (Np.len times) (Np.len times);
    v0 ← Np.cast (Np.dtype_of times) Np.python (y0 p);
    l ← steps (step p (Np.dtype_of times)) j v0;
    Ok {| Np.dtype_of := Np.dtype_of times;
          Np.cells := (Some <$> l)
                      ++ replicate (length (Np.cells times) - 1 - j) None |}.
Proof.
  intros Hj. unfold loop_prefix, Np.empty_like.
  destruct (Np.alloc m _ _) as [[]| |]; [|done..]. cbn [mbind outcome_bind].
  unfold Np.setitem. cbn [Np.cells Np.dtype_of].
  rewrite decide_True by (rewrite length_replicate; lia).
  destruct (Np.cast _ Np.python (y0 p)) as [v0| |]; [|done..].
  cbn [mbind outcome_bind].
  replace (length (Np.cells times))
    with (S (j + (length (Np.cells times) - 1 - j))) by lia.
  rewrite replicate_S. cbn [insert list_insert].
  rewrite replicate_add.
  replace (S (j + (length (Np.cells times) - 1 - j)) - 1 - j)
    with (length (Np.cells times) - 1 - j) by lia.
  apply (loop_invariant g p _ j [] v0). apply length_replicate.
Qed.

(** The cell runs the loop to its last iteration. *)
Lemma run_as_prefix :
  run m g p =
    times ← Np.arange m (Int 0) (Tmax p) (dt p);
    y ← loop_prefix m g p times (length (Np.cells times) - 1);
    Ok (times, y).
Proof.
  unfold run, loop_prefix, range, Np.len.
  destruct (Np.arange m (Int 0) (Tmax p) (dt p)) as [times| |]; [|done..].
  cbn [mbind outcome_bind].
  replace (Z.to_nat (Z.of_nat (length (Np.cells times)) - 1))
    with (length (Np.cells times) - 1) by lia.
  destruct (Np.empty_like m times) as [y| |]; [|done..]. cbn [mbind outcome_bind].
  by destruct (Np.setitem Np.python y 0 (y0 p)).
Qed.

(** On an empty grid the cell fails on [y[0] = y0]. *)
Lemma loop_prefix_empty times j :
  Np.cells times = [] → loop_prefix m g p times j = Raise IndexError.
Proof.
  intros H. unfold loop_prefix, Np.empty_like, Np.len. rewrite H. cbn [length].
  rewrite alloc_none. cbn [mbind outcome_bind replicate].
  unfold Np.setitem. cbn [Np.cells length]. by rewrite decide_False by lia.
Qed.

Lemma cast_start :
  Np.cast (grid_type p) Np.python (Int 0) = Ok (to_dtype (grid_type p) (Int 0)).
Proof. by destruct (grid_type p). Qed.

Lemma cast_second :
  Np.cast (grid_type p) Np.python (Py.add (Int 0) (dt p))
  = Ok (to_dtype (grid_type p) (Py.add (Int 0) (dt p))).
Proof.
  unfold grid_type. destruct (Tmax p) as [T|T], (dt p) as [n|x]; try done.
  cbn [value_of Np.result_type Py.add to_dtype Np.cast].
  by rewrite Z.add_0_l, val_in_range.
Qed.

(** What [arange] returns, for the call of the cell. *)
Lemma arange_unfold :
  Np.arange m (Int 0) (Tmax p) (dt p) =
    n ← Np.arange_length (Int 0) (Tmax p) (dt p);
    if (n <=? 0)%Z then Ok {| Np.dtype_of := grid_type p; Np.cells := [] |}
    else
      _ ← Np.alloc m 0 n;
      Ok {| Np.dtype_of := grid_type p;
            Np.cells := Some <$> grid p (Z.to_nat n) |}.
Proof.
  unfold Np.arange. fold (grid_type p).
  destruct (Np.arange_length _ _ _) as [n| |]; [|done..]. cbn [mbind outcome_bind].
  destruct (Z.leb_spec n 0) as [Hn|Hn]; [done|].
  destruct (Np.alloc m 0 n) as [[]| |]; [|done..]. cbn [mbind outcome_bind].
  rewrite cast_start. cbn [mbind outcome_bind]. unfold grid.
  destruct (Z.eqb_spec n 1) as [->|Hn1].
  - cbn [mbind outcome_bind]. done.
  - rewrite cast_second. cbn [mbind outcome_bind].
    by rewrite <- list_fmap_compose.
Qed.

(** The cell returns what its closed form gives, whatever the fresh
    memory of [y] held. *)
Lemma integrate_closed_form : integrate m g p = closed_form m p.
Proof.
  unfold integrate, closed_form. rewrite run_as_prefix, arange_unfold.
  destruct (Np.arange_length _ _ _) as [n| |]; [|done..]. cbn [mbind outcome_bind].
  destruct (Z.leb_spec n 0) as [Hn|Hn].
  { cbn [mbind outcome_bind]. by rewrite loop_prefix_empty. }
  destruct (Np.alloc m 0 n) as [[]| |]; [|done..]. cbn [mbind outcome_bind].
  rewrite loop_prefix_spec.
  2:{ cbn [Np.cells]. unfold grid. rewrite !length_fmap, length_seq. lia. }
  unfold Np.len. cbn [Np.cells Np.dtype_of].
  assert (length (grid p (Z.to_nat n)) = Z.to_nat n) as Hg
    by (unfold grid; by rewrite length_fmap, length_seq).
  rewrite !length_fmap, Hg, Z2Nat.id by lia.
  destruct (Np.alloc m n n) as [[]| |]; [|done..]. cbn [mbind outcome_bind].
  destruct (Np.cast (grid_type p) Np.python (y0 p)) as [v0| |]; [|done..].
  cbn [mbind outcome_bind].
  destruct (steps _ _ v0) as [l| |] eqn:Hl; [|done..]. cbn [mbind outcome_bind].
  rewrite contents_written.
  replace (Z.to_nat n - 1 - (Z.to_nat n - 1)) with 0 by lia.
  cbn [replicate]. rewrite app_nil_r.
  by rewrite (contents_written g (grid_type p) l).
Qed.

End cell.

(** ** Binary64 arithmetic facts *)

Section float_facts.
Import F64.

Lemma binary_round_aux_signed s m e l :
  signed s (binary_round_aux prec emax s m e l).
Proof.
  unfold binary_round_aux.
  destruct (shr_fexp _ _ m e l) as [mrs e'].
  destruct (shr_fexp _ _ _ e' loc_Exact) as [mrs' e''].
  destruct (shr_m mrs'); [constructor| |constructor].
  destruct (Z.leb _ _); constructor.
Qed.


Lemma SFdiv_signed sx sy x y :
  signed sx x → signed sy y → signed (xorb sx sy) (SF64div x y).
Proof.
  intros [] []; cbn -[SFdiv_core_binary]; try constructor.
  destruct (SFdiv_core_binary _ _ _ _ _ _) as [[mz ez] lz].
  apply binary_round_aux_signed.
Qed.

Lemma of_uint63_signed n : signed false (Prim2SF (of_uint63 n)).
Proof.
  rewrite of_uint63_spec. unfold binary_normalize.
  pose proof (Uint63.to_Z_bounded n) as [Hn _].
  destruct (Uint63.to_Z n) as [|m|m]; [constructor| |lia].
  unfold binary_round. destruct (shl_align _ _ _). apply binary_round_aux_signed.
Qed.

Lemma Prim2SF_zero : Prim2SF 0 = S754_zero false.
Proof. reflexivity. Qed.

(** *** Zeros *)

Lemma SFsub_zero_r x : SF64sub x (S754_zero false) = x.
Proof. by destruct x as [[]|[]| |]. Qed.


Lemma SFmul_zero_r x y :
  sf_finite x = true → sf_zero y = true → sf_zero (SF64mul x y) = true.
Proof. by destruct x, y. Qed.

Lemma SFmul_zero_l x y :
  sf_zero x = true → sf_finite y = true → sf_zero (SF64mul x y) = true.
Proof. by destruct x, y. Qed.

Lemma SFmul_zero_finite_inv x y :
  sf_zero y = true → sf_finite (SF64mul x y) = true → sf_finite x = true.
Proof. by destruct x, y. Qed.

Lemma SFsub_diag s m e :
  SF64sub (S754_finite s m e) (S754_finite s m e) = S754_zero false.
Proof. cbn -[shl_align]. by rewrite Z.sub_diag. Qed.

Lemma SFsub_finite_zero x y :
  sf_finite x = true → sf_zero y = true → sf_finite (SF64sub x y) = true.
Proof. by destruct x as [[]| | |], y as [[]| | |]. Qed.

Lemma SFadd_zero_r x y :
  sf_finite x = true → sf_zero y = true →
  SF64add x y = x ∨ (sf_zero x = true ∧ sf_zero (SF64add x y) = true).
Proof. destruct x as [[]| | |], y as [[]| | |]; cbn; try discriminate; auto. Qed.

(** *** The comparison [==] *)

Lemma SFeqb_zero_r x y : sf_zero y = true → SFeqb x y = true → sf_zero x = true.
Proof. destruct x as [|[]| |[]], y; cbn; try discriminate; auto. Qed.

Lemma SFeqb_zero_zero x y : sf_zero x = true → sf_zero y = true → SFeqb x y = true.
Proof. by destruct x, y. Qed.

Lemma SFeqb_refl x : x ≠ S754_nan → SFeqb x x = true.
Proof.
  destruct x as [|[]| |[] m e]; cbn; try done; unfold SFeqb; cbn;
    rewrite Z.compare_refl, Pos.compare_cont_refl; done.
Qed.

Lemma SFeqb_finite_eq x y :
  sf_finite y = true → sf_zero y = false → SFeqb x y = true → x = y.
Proof.
  destruct y as [| | |s2 m2 e2]; try discriminate. intros _ _.
  destruct x as [|[]| |s1 m1 e1]; unfold SFeqb; cbn; try (by destruct s2).
  destruct s1, s2; try discriminate;
    destruct (Z.compare_spec e1 e2); try discriminate; subst;
    destruct (Pos.compare_cont Eq m1 m2) eqn:Hm; try discriminate;
    apply Pos.compare_eq in Hm; by subst.
Qed.

Lemma eqb_zero x : (x =? 0)%float = sf_zero (Prim2SF x).
Proof.
  rewrite FloatAxioms.eqb_spec, Prim2SF_zero. by destruct (Prim2SF x) as [|[]| |[]].
Qed.

(** *** Signs of the operands *)

Lemma positive_inv x :
  (0 <? x)%float = true →
  signed false (Prim2SF x) ∧ sf_zero (Prim2SF x) = false ∧ Prim2SF x ≠ S754_nan.
Proof.
  rewrite FloatAxioms.ltb_spec, Prim2SF_zero. unfold SFltb.
  destruct (Prim2SF x) as [s|[]| |[] m e]; cbn; try discriminate;
    (split; [constructor|done]).
Qed.

Lemma negative_inv x :
  (x <? 0)%float = true →
  signed true (Prim2SF x) ∧ sf_zero (Prim2SF x) = false ∧ Prim2SF x ≠ S754_nan.
Proof.
  rewrite FloatAxioms.ltb_spec, Prim2SF_zero. unfold SFltb.
  destruct (Prim2SF x) as [s|[]| |[] m e]; cbn; try discriminate;
    (split; [constructor|done]).
Qed.


Lemma nonpositive_inv x :
  (x <=? 0)%float = true →
  sf_zero (Prim2SF x) = true ∨ signed true (Prim2SF x) ∧ Prim2SF x ≠ S754_nan.
Proof.
  rewrite FloatAxioms.leb_spec, Prim2SF_zero. unfold SFleb.
  destruct (Prim2SF x) as [s|[]| |[] m e]; cbn; try discriminate; auto;
    (right; split; [constructor|done]).
Qed.

Lemma sub_zero_r x : (x - 0)%float = x.
Proof. apply Prim2SF_inj. rewrite sub_spec, Prim2SF_zero. apply SFsub_zero_r. Qed.



(** *** Ceilings *)

Lemma sf_ceil_signed_true x c : signed true x → sf_ceil x = Some c → (c ≤ 0)%Z.
Proof.
  intros [] [= <-]; [done|]. cbn [cond_Zopp].
  destruct (Z.leb_spec 0 e).
  - pose proof (Z.pow_pos_nonneg 2 e). nia.
  - rewrite Z.opp_involutive.
    pose proof (Z.pow_pos_nonneg 2 (- e)).
    pose proof (Z.div_pos (Z.pos m) (2 ^ (- e))). lia.
Qed.


Lemma sf_ceil_zero x c : sf_zero x = true → sf_ceil x = Some c → c = 0%Z.
Proof. destruct x; try discriminate. by intros _ [= <-]. Qed.

End float_facts.

(** ** The sign of a parameter, and of the quotient [Tmax / dt] *)

Section sign_facts.
Import F64.

Lemma SFopp_signed s x : signed s x → signed (negb s) (SFopp x).
Proof. intros []; cbn; constructor. Qed.

(** The float of an int of [int64] has the sign of the int. *)
Lemma of_Z_signed n :
  Int64.in_range n = true → signed (n <? 0)%Z (Prim2SF (of_Z n)).
Proof.
  unfold Int64.in_range, of_Z. intros Hn.
  destruct (Z.leb_spec 0 n) as [H0|H0].
  - replace (n <? 2 ^ 63)%Z with true by lia. cbn [andb].
    replace (n <? 0)%Z with false by lia. apply of_uint63_signed.
  - cbn [andb]. replace (n <? 0)%Z with true by lia. rewrite andb_true_r.
    destruct (Z.ltb_spec (- 2 ^ 63) n) as [Hm|Hm].
    + rewrite opp_spec. apply (SFopp_signed false), of_uint63_signed.
    + replace n with (- 2 ^ 63)%Z by lia. vm_compute. constructor.
Qed.

Lemma sf_exact_signed n : signed (n <? 0)%Z (sf_exact n).
Proof. destruct n; constructor. Qed.

Lemma scalar_has_sign (v : scalar) :
  match v with
  | PyInt n => has_sign (Int64.val n <? 0)%Z v
  | PyFloat x => True
  end.
Proof.
  destruct v as [n|x]; [|done]. split; [apply sf_exact_signed|].
  apply of_Z_signed, val_in_range.
Qed.

Lemma pos_has_sign (v : scalar) : Py.pos v = true → has_sign false v.
Proof.
  pose proof (scalar_has_sign v) as H. destruct v as [n|x]; cbn.
  - intros Hn. cbn in H. by replace (Int64.val n <? 0)%Z with false in H by lia.
  - by intros [? _]%positive_inv.
Qed.

Lemma neg_has_sign (v : scalar) : Py.neg v = true → has_sign true v.
Proof.
  pose proof (scalar_has_sign v) as H. destruct v as [n|x]; cbn.
  - intros Hn. cbn in H. by rewrite Hn in H.
  - by intros [? _]%negative_inv.
Qed.

Lemma pos_not_zero (v : value) : Py.pos v = true → Py.is_zero v = false.
Proof.
  destruct v as [n|x]; cbn; [lia|].
  intros (_ & Hz & _)%positive_inv. by rewrite eqb_zero.
Qed.



Lemma nonpos_cases (v : scalar) :
  Py.nonpos v = true → Py.is_zero v = true ∨ has_sign true v.
Proof.
  destruct v as [n|x].
  - cbn [value_of Py.nonpos Py.is_zero]. intros Hn.
    destruct (Z.eqb_spec (Int64.val n) 0) as [|Hz]; [by left|right].
    apply (neg_has_sign (PyInt n)). cbn. lia.
  - cbn. rewrite eqb_zero. intros [H|[H _]]%nonpositive_inv; auto.
Qed.


Lemma has_sign_float s (v : value) :
  has_sign s v → signed s (Prim2SF (Py.as_float v)).
Proof. destruct v; cbn; [by intros [_ ?]|done]. Qed.

(** The quotient of two signed values carries the product of the signs. *)
Lemma quotient_signed sa sb (a b : value) :
  has_sign sa a → has_sign sb b → signed (xorb sa sb) (Py.quotient a b).
Proof.
  intros Ha Hb. destruct a as [x|x], b as [y|y]; cbn [Py.quotient].
  - destruct Ha as [Ha _], Hb as [Hb _]. by apply SFdiv_signed.
  - rewrite div_spec. apply SFdiv_signed; [by apply (has_sign_float _ (Int x))|done].
  - rewrite div_spec. apply SFdiv_signed; [done|by apply (has_sign_float _ (Int y))].
  - rewrite div_spec. by apply SFdiv_signed.
Qed.

Lemma of_Z_zero : of_Z 0 = 0%float.
Proof. reflexivity. Qed.

(** A zero divided by anything is a zero or a NaN. *)
Lemma quotient_of_zero (a b : value) :
  Py.is_zero a = true →
  sf_zero (Py.quotient a b) = true ∨ Py.quotient a b = S754_nan.
Proof.
  intros Ha.
  assert (∀ s y, sf_zero (SF64div (S754_zero s) y) = true
                 ∨ SF64div (S754_zero s) y = S754_nan) as Hdiv.
  { intros s [| | |]; cbn; auto. }
  destruct a as [x|x]; cbn in Ha.
  - apply Z.eqb_eq in Ha as ->. destruct b as [y|y]; cbn [Py.quotient].
    + apply Hdiv.
    + rewrite div_spec. cbn [Py.as_float]. rewrite of_Z_zero. apply Hdiv.
  - rewrite eqb_zero in Ha.
    assert (sf_zero (Prim2SF (x / Py.as_float b)) = true
            ∨ Prim2SF (x / Py.as_float b) = S754_nan) as H.
    { rewrite div_spec. destruct (Prim2SF x); try discriminate. apply Hdiv. }
    by destruct b.
Qed.

(** The horizon less the start [0] is the horizon. *)
Lemma sub_start (v : value) : Py.sub v (Int 0) = v.
Proof.
  destruct v as [n|x]; cbn [Py.sub Py.as_float].
  - by rewrite Z.sub_0_r.
  - by rewrite of_Z_zero, sub_zero_r.
Qed.

End sign_facts.

(** ** The time grid *)

Section grid_facts.
Import F64 Np.


(** The length of the grid of the cell, from the quotient [Tmax / dt]. *)
Lemma arange_length_cell (T s : value) :
  arange_length (Int 0) T s =
    if Py.is_zero s then Raise ZeroDivisionError
    else
      let q := Py.quotient T s in
      len ← safe_ceil_to_intp q;
      Ok (if sf_zero q && negb (Py.is_zero T)
          then (if sf_signbit q then 0 else 1)%Z
          else len).
Proof.
  unfold arange_length, Py.truediv. rewrite sub_start.
  by destruct (Py.is_zero s).
Qed.



(** A quotient that is NaN, negative, or the zero of a zero horizon gives
    no grid point. *)
Lemma arange_length_empty (T d : value) :
  Py.is_zero d = false →
  Py.is_zero T = true ∨ signed true (Py.quotient T d) →
  match arange_length (Int 0) T d with
  | Ok n => (n ≤ 0)%Z ∧ empty_grid_error (Py.quotient T d) = IndexError
  | Raise e => e = empty_grid_error (Py.quotient T d)
  | Unspecified => False
  end.
Proof.
  intros Hd Hq. rewrite arange_length_cell, Hd. cbv zeta.
  unfold empty_grid_error, safe_ceil_to_intp.
  destruct (sf_ceil (Py.quotient T d)) as [c|] eqn:Hc; [|done].
  assert (c ≤ 0)%Z as Hc0.
  { destruct Hq as [HT|Hq].
    - destruct (quotient_of_zero T d HT) as [Hz|Hn].
      + by rewrite (sf_ceil_zero _ _ Hz Hc).
      + by rewrite Hn in Hc.
    - by apply (sf_ceil_signed_true _ _ Hq). }
  destruct ((- 2 ^ 63 <=? c) && (c <=? 2 ^ 63))%Z; [|done].
  cbn [mbind outcome_bind]. split; [|done].
  replace (c =? 2 ^ 63)%Z with false by lia.
  destruct (Py.is_zero T) eqn:HTz.
  - by rewrite andb_false_r.
  - destruct Hq as [|Hq]; [done|]. rewrite andb_true_r. by destruct Hq.
Qed.


Lemma length_grid p n : length (grid p n) = n.
Proof. unfold grid. by rewrite length_fmap, length_seq. Qed.

(** A shorter grid is the beginning of a longer one of the same step and
    type. *)
Lemma grid_take p p' n n' :
  dt p = dt p' → grid_type p = grid_type p' → n ≤ n' →
  grid p n = take n (grid p' n').
Proof.
  intros Hdt Hd Hn. unfold grid. rewrite Hdt, Hd.
  by rewrite <- fmap_take, take_seq, Nat.min_l.
Qed.

(** Two arrays of [n] cells: the grid, then [y]. *)
Lemma alloc_twice m n :
  (0 ≤ n)%Z →
  (_ ← alloc m 0 n; alloc m n n) =
    if (max_cells <=? n)%Z then Raise ValueError
    else if (2 * n <=? room m)%Z then Ok tt
    else Raise MemoryError.
Proof.
  intros Hn. unfold alloc. destruct (max_cells <=? n)%Z; [done|].
  destruct (Z.leb_spec (0 + n) (room m)), (Z.leb_spec (n + n) (room m)),
    (Z.leb_spec (2 * n) (room m)); try done; lia.
Qed.

End grid_facts.

(** ** The step in a [float64] array, and in an [int64] array *)

Section regimes.
Import Np.
Variable p : params.

Lemma cast_float o (v : value) : cast float64 o v = Ok (Float (Py.as_float v)).
Proof. by destruct v. Qed.

Lemma step_float x : step p float64 (Float x) = Ok (Float (euler_step p x)).
Proof.
  unfold step, rhs, euler_step, rate, capacity.
  destruct (Py.mul (dt p) (k p)) as [a|a], (value_of (M p)) as [c|c]; done.
Qed.

Lemma steps_float n x :
  steps (step p float64) n (Float x)
  = Ok (Float <$> orbit (euler_step p) (S n) x).
Proof.
  revert x. induction n as [|n IH]; intros x; [done|].
  cbn [steps]. rewrite step_float. cbn [mbind outcome_bind]. by rewrite IH.
Qed.

(** A value stored in an [int64] array is an int of [int64]. *)
Lemma cast_int o v w :
  cast int64 o v = Ok w → ∃ n, w = Int n ∧ Int64.in_range n = true.
Proof.
  destruct v as [n|x]; cbn [cast].
  - destruct (Int64.in_range n) eqn:H; [|done]. intros [= <-]. by exists n.
  - destruct (F64.trunc x) as [n|], o; try done; try (by destruct (x =? x)%float);
      destruct (Int64.in_range n) eqn:H; try done; intros [= <-]; by exists n.
Qed.

Lemma step_int v w :
  step p int64 v = Ok w → ∃ n, w = Int n ∧ Int64.in_range n = true.
Proof.
  unfold step. destruct (rhs p v) as [r| |]; [|done..]. apply cast_int.
Qed.

(** The type of the grid is [int64] exactly when horizon and step are
    ints. *)
Lemma grid_type_int :
  grid_type p = int64 ↔ (∃ T, Tmax p = PyInt T) ∧ (∃ d, dt p = PyInt d).
Proof.
  unfold grid_type. destruct (Tmax p) as [T|T], (dt p) as [d|d]; cbn;
    split; try done; try (intros [[? [=]] [? [=]]]); eauto.
Qed.

End regimes.

(** ** The cell as a whole *)

Section cell_facts.
Import F64 Np.
Variable m : machine.
Variable g : junk.
Variable p : params.

Lemma integrate_length_raises e :
  arange_length (Int 0) (Tmax p) (dt p) = Raise e → integrate m g p = Raise e.
Proof.
  intros H. rewrite integrate_closed_form. unfold closed_form. by rewrite H.
Qed.

Lemma integrate_length_nonpositive n :
  arange_length (Int 0) (Tmax p) (dt p) = Ok n → (n ≤ 0)%Z →
  integrate m g p = Raise IndexError.
Proof.
  intros H Hn. rewrite integrate_closed_form. unfold closed_form. rewrite H.
  cbn [mbind outcome_bind]. by replace (n <=? 0)%Z with true by lia.
Qed.

Lemma integrate_length_positive n :
  arange_length (Int 0) (Tmax p) (dt p) = Ok n → (1 ≤ n)%Z →
  integrate m g p =
    if (max_cells <=? n)%Z then Raise ValueError
    else if (2 * n <=? room m)%Z then
      v0 ← cast (grid_type p) python (y0 p);
      ys ← steps (step p (grid_type p)) (Z.to_nat n - 1) v0;
      Ok (grid p (Z.to_nat n), ys)
    else Raise MemoryError.
Proof.
  intros H Hn. rewrite integrate_closed_form. unfold closed_form. rewrite H.
  cbn [mbind outcome_bind]. replace (n <=? 0)%Z with false by lia.
  pose proof (alloc_twice m n ltac:(lia)) as Ha.
  destruct (alloc m 0 n) as [[]| |]; cbn [mbind outcome_bind] in Ha |- *;
    [rewrite Ha|..];
    destruct (max_cells <=? n)%Z; try done; try congruence;
    destruct (2 * n <=? room m)%Z; try done; congruence.
Qed.

(** Whatever the cell returns, its grid is the grid of its length and
    its trajectory the steps from the stored [y0], one value per grid
    point; both arrays found room. *)
Lemma integrate_Ok times ys :
  integrate m g p = Ok (times, ys) →
  1 ≤ length times ∧ length ys = length times
  ∧ times = grid p (length times)
  ∧ arange_length (Int 0) (Tmax p) (dt p) = Ok (Z.of_nat (length times))
  ∧ (2 * Z.of_nat (length times) ≤ room m)%Z
  ∧ ∃ v0, cast (grid_type p) python (y0 p) = Ok v0
          ∧ steps (step p (grid_type p)) (length times - 1) v0 = Ok ys.
Proof.
  destruct (arange_length (Int 0) (Tmax p) (dt p)) as [n| |] eqn:Hn.
  2:{ by rewrite (integrate_length_raises _ Hn). }
  2:{ rewrite integrate_closed_form. unfold closed_form. by rewrite Hn. }
  destruct (Z.le_gt_cases n 0) as [H0|H0].
  { by rewrite (integrate_length_nonpositive _ Hn H0). }
  rewrite (integrate_length_positive _ Hn) by lia.
  destruct (max_cells <=? n)%Z; [done|].
  destruct (Z.leb_spec (2 * n) (room m)) as [Hr|Hr]; [|done].
  destruct (cast (grid_type p) python (y0 p)) as [v0| |]; [|done..].
  cbn [mbind outcome_bind].
  destruct (steps _ _ v0) as [l| |] eqn:Hl; [|done..].
  cbn [mbind outcome_bind]. intros [= <- <-].
  rewrite length_grid, (steps_length _ _ _ _ Hl), Z2Nat.id by lia.
  repeat split; try done; try lia. by exists v0.
Qed.

(** In a [float64] array the trajectory is the orbit of the step on
    binary64 from [y0] as a float. *)
Lemma integrate_float_Ok times ys :
  grid_type p = float64 → integrate m g p = Ok (times, ys) →
  ys = Float <$> orbit (euler_step p) (length times) (Py.as_float (y0 p)).
Proof.
  intros Hd (Hlen & _ & _ & _ & _ & v0 & Hv0 & Hys)%integrate_Ok.
  rewrite Hd, cast_float in Hv0. injection Hv0 as <-.
  rewrite Hd, steps_float in Hys.
  replace (S (length times - 1)) with (length times) in Hys by lia.
  congruence.
Qed.

(** No grid point: the quotient is NaN, negative, or the zero of a zero
    horizon.  The cell ends in an exception. *)
Lemma integrate_no_grid :
  Py.is_zero (dt p) = false →
  Py.is_zero (Tmax p) = true ∨ signed true (Py.quotient (Tmax p) (dt p)) →
  integrate m g p = Raise (empty_grid_error (Py.quotient (Tmax p) (dt p))).
Proof.
  intros Hdt Hq. pose proof (arange_length_empty _ _ Hdt Hq) as H.
  destruct (arange_length (Int 0) (Tmax p) (dt p)) as [n|e|] eqn:Hlen; [| |done].
  - destruct H as [Hn ->]. by apply (integrate_length_nonpositive n).
  - subst e. by apply integrate_length_raises.
Qed.



End cell_facts.

(** More room never turns a result into a failure. *)
Lemma integrate_mono m m' g p r :
  (Np.room m ≤ Np.room m')%Z →
  integrate m g p = Ok r → integrate m' g p = Ok r.
Proof.
  intros Hr. rewrite !integrate_closed_form. unfold closed_form.
  destruct (Np.arange_length _ _ _) as [n| |]; [|done..]. cbn [mbind outcome_bind].
  destruct (n <=? 0)%Z; [done|].
  destruct (Np.alloc m 0 n) as [[]| |] eqn:H1; [|done..].
  rewrite (alloc_mono _ _ _ _ Hr H1). cbn [mbind outcome_bind].
  destruct (Np.alloc m n n) as [[]| |] eqn:H2; [|done..].
  by rewrite (alloc_mono _ _ _ _ Hr H2).
Qed.

(** What the smallest machine returns, every machine returns. *)
Lemma integrate_small m g p r :
  integrate small g p = Ok r → integrate m g p = Ok r.
Proof. apply integrate_mono, room_small. Qed.

(** ** Fixed points of the step *)

Section fixed_points.
Import F64.

(** At [y == 0] or [y == M] the step returns a value equal to [y],
    provided [M] is finite and the product [a * y] did not overflow. *)
Lemma sf_step_fixed a m y v :
  sf_finite m = true → sf_finite (SF64mul a y) = true →
  sf_zero y = true ∨ SFeqb y m = true →
  SFeqb v y = true →
  SFeqb (SF64add v (SF64mul (SF64mul a v) (SF64sub m v))) y = true.
Proof.
  intros Hm Hay Hy Hv.
  destruct (sf_zero y) eqn:Hyz.
  - (* the orbit stays on a zero *)
    pose proof (SFeqb_zero_r _ _ Hyz Hv) as Hvz.
    pose proof (SFmul_zero_finite_inv _ _ Hyz Hay) as Ha.
    pose proof (SFmul_zero_r _ _ Ha Hvz) as Hav.
    pose proof (SFsub_finite_zero _ _ Hm Hvz) as Hmv.
    pose proof (SFmul_zero_l _ _ Hav Hmv) as Hd.
    apply SFeqb_zero_zero; [|done].
    destruct v; try discriminate.
    destruct (SF64mul (SF64mul a (S754_zero s)) (SF64sub m (S754_zero s)))
      as [[]| | |]; try discriminate; by destruct s.
  - (* the orbit stays on [M] *)
    destruct Hy as [|Hym]; [done|].
    assert (sf_zero m = false) as Hmz.
    { destruct (sf_zero m) eqn:E; [|done].
      by rewrite (SFeqb_zero_r _ _ E Hym) in Hyz. }
    apply (SFeqb_finite_eq _ _ Hm Hmz) in Hym as ->.
    apply (SFeqb_finite_eq _ _ Hm Hmz) in Hv as ->.
    destruct m as [| | |s mm e]; try discriminate.
    rewrite SFsub_diag.
    pose proof (SFmul_zero_r _ (S754_zero false) Hay eq_refl) as Hd.
    destruct (SFadd_zero_r (S754_finite s mm e) _ eq_refl Hd) as [->|[[=] _]].
    by apply SFeqb_refl.
Qed.

Lemma euler_step_fixed_at p w v :
  finite (capacity p) = true → finite (rate p * w) = true →
  (w =? 0)%float = true ∨ (w =? capacity p)%float = true →
  (v =? w)%float = true → (euler_step p v =? w)%float = true.
Proof.
  unfold finite, euler_step. rewrite eqb_zero, !FloatAxioms.eqb_spec.
  rewrite add_spec, (mul_spec _ (capacity p - v)), (mul_spec _ v), sub_spec,
    (mul_spec _ w).
  apply sf_step_fixed.
Qed.

(** A zero rate [a = dt * k]: the step returns a value equal to the one
    it was given. *)
Lemma sf_step_zero_rate a m y v :
  sf_zero a = true → sf_finite y = true → sf_finite (SF64sub m y) = true →
  SFeqb v y = true →
  SFeqb (SF64add v (SF64mul (SF64mul a v) (SF64sub m v))) y = true.
Proof.
  intros Ha Hy Hmy Hv.
  destruct (sf_zero y) eqn:Hyz.
  - pose proof (SFeqb_zero_r _ _ Hyz Hv) as Hvz.
    assert (sf_finite m = true) as Hm by (by destruct m, y).
    assert (sf_zero (SF64mul (SF64mul a v) (SF64sub m v)) = true) as Hd.
    { apply SFmul_zero_l; [|by apply SFsub_finite_zero].
      apply SFmul_zero_l; [done|by destruct v]. }
    apply SFeqb_zero_zero; [|done].
    destruct v; try discriminate.
    destruct (SF64mul (SF64mul a (S754_zero s)) (SF64sub m (S754_zero s)))
      as [[]| | |]; try discriminate; by destruct s.
  - apply (SFeqb_finite_eq _ _ Hy Hyz) in Hv as ->.
    assert (sf_zero (SF64mul (SF64mul a y) (SF64sub m y)) = true) as Hd.
    { apply SFmul_zero_l; [|done]. by apply SFmul_zero_l. }
    destruct (SFadd_zero_r y _ Hy Hd) as [->|[E _]]; [|congruence].
    apply SFeqb_refl. by destruct y.
Qed.

Lemma euler_step_zero_rate p w v :
  (rate p =? 0)%float = true →
  finite w = true → finite (capacity p - w) = true →
  (v =? w)%float = true → (euler_step p v =? w)%float = true.
Proof.
  unfold finite, euler_step. rewrite eqb_zero, !FloatAxioms.eqb_spec.
  rewrite add_spec, (mul_spec _ (capacity p - v)), (mul_spec _ v), !sub_spec.
  apply sf_step_zero_rate.
Qed.

Lemma eqb_refl_of_eqb x c : (x =? c)%float = true → (x =? x)%float = true.
Proof.
  rewrite !FloatAxioms.eqb_spec. intros H. apply SFeqb_refl. intros E.
  by rewrite E in H.
Qed.

Lemma eqb_refl_finite x : finite x = true → (x =? x)%float = true.
Proof.
  unfold finite. rewrite FloatAxioms.eqb_spec. intros H.
  apply SFeqb_refl. by destruct (Prim2SF x).
Qed.

End fixed_points.

Lemma chain_spec r l i a b :
  chain r l = true → l !! i = Some a → l !! S i = Some b → r a b = true.
Proof.
  revert i. induction l as [|x l IH]; intros i Hc Ha Hb; [done|].
  destruct l as [|y l]; [by destruct i|].
  cbn [chain] in Hc. apply andb_prop in Hc as [Hxy Hc].
  destruct i as [|i]; [by simplify_eq/=|]. by apply (IH i).
Qed.

Section orbit_more.
Context {A : Type} (f : A → A).

Lemma orbit_take n m v : n ≤ m → take n (orbit f m v) = orbit f n v.
Proof.
  revert m v. induction n as [|n IH]; intros m v Hnm; [done|].
  destruct m as [|m]; [lia|]. cbn [orbit take]. f_equal. apply IH. lia.
Qed.

(** A property that the step preserves holds from the index where it
    first holds to the end of the orbit. *)
Lemma orbit_absorbing (P : A → Prop) n v i j x y :
  (∀ a, P a → P (f a)) →
  orbit f n v !! i = Some x → P x → i ≤ j → orbit f n v !! j = Some y → P y.
Proof.
  intros Hstep Hx HP Hij Hy.
  pose proof (lookup_lt_Some _ _ _ Hx) as Hi.
  pose proof (lookup_lt_Some _ _ _ Hy) as Hj.
  rewrite length_orbit in Hi, Hj.
  rewrite orbit_lookup in Hx, Hy by done.
  injection Hx as <-. injection Hy as <-.
  replace j with ((j - i) + i) by lia.
  induction (j - i) as [|d IH]; [done|]. cbn [Nat.iter Nat.add]. by apply Hstep.
Qed.
End orbit_more.

(** ** Where the cell can fail *)

Section failure_facts.
Import F64 Np.

Lemma arange_length_raise (T d : value) e :
  arange_length (Int 0) T d = Raise e →
  e = ZeroDivisionError ∧ Py.is_zero d = true
  ∨ e = ValueError ∧ Py.is_zero d = false.
Proof.
  rewrite arange_length_cell. unfold safe_ceil_to_intp.
  destruct (Py.is_zero d); [intros [= <-]; by left|]. cbv zeta.
  destruct (sf_ceil _) as [c|]; [|intros [= <-]; by right].
  destruct ((- 2 ^ 63 <=? c) && (c <=? 2 ^ 63))%Z; [done|intros [= <-]; by right].
Qed.

Lemma arange_length_specified (T d : value) :
  arange_length (Int 0) T d ≠ Unspecified.
Proof.
  rewrite arange_length_cell. unfold safe_ceil_to_intp.
  destruct (Py.is_zero d); [done|]. cbv zeta.
  destruct (sf_ceil _) as [c|]; [|done].
  by destruct ((- 2 ^ 63 <=? c) && (c <=? 2 ^ 63))%Z.
Qed.

Lemma alloc_raise m held n e :
  alloc m held n = Raise e → e = ValueError ∨ e = MemoryError.
Proof.
  unfold alloc. destruct (max_cells <=? n)%Z; [intros [= <-]; by left|].
  destruct (held + n <=? room m)%Z; [done|intros [= <-]; by right].
Qed.

Lemma cast_raise d o v e :
  cast d o v = Raise e → e = ValueError ∨ e = OverflowError.
Proof.
  destruct d, v as [n|x]; cbn [cast]; repeat case_match; try done;
    intros [= <-]; auto.
Qed.

Lemma step_raise p d v e :
  step p d v = Raise e → e = ValueError ∨ e = OverflowError.
Proof.
  unfold step, rhs. destruct (mul_py _ v) as [t| |] eqn:Ht; cbn [mbind outcome_bind].
  - apply cast_raise.
  - unfold mul_py in Ht. destruct (Py.mul _ _) as [a|a], v as [b|b]; try done.
    by destruct (Int64.in_range a).
  - done.
Qed.

Lemma steps_raise f n v e :
  steps f n v = Raise e → ∃ a, f a = Raise e.
Proof.
  revert v. induction n as [|n IH]; intros v; cbn [steps]; [done|].
  destruct (f v) as [v'|e'|] eqn:Hf; cbn [mbind outcome_bind]; [|intros [= <-]; eauto|done].
  destruct (steps f n v') as [l|e'|] eqn:Hs; cbn [mbind outcome_bind]; [done| |done].
  intros [= <-]. eauto.
Qed.

(** The exceptions of the cell: [ZeroDivisionError] comes from the
    division that sizes the grid and [IndexError] from [y[0] = y0] on an
    empty grid, and from nowhere else. *)
Lemma integrate_raise m g p e :
  integrate m g p = Raise e →
  match e with
  | ZeroDivisionError => Py.is_zero (dt p) = true
  | IndexError =>
      ∃ n, arange_length (Int 0) (Tmax p) (dt p) = Ok n ∧ (n ≤ 0)%Z
  | _ => True
  end.
Proof.
  rewrite integrate_closed_form. unfold closed_form.
  destruct (arange_length _ _ _) as [n|e'|] eqn:Hn; cbn [mbind outcome_bind].
  - destruct (Z.leb_spec n 0) as [H0|H0].
    { intros [= <-]. by exists n. }
    destruct (alloc m 0 n) as [[]|e'|] eqn:H1; cbn [mbind outcome_bind].
    2:{ intros [= <-]. by apply alloc_raise in H1 as [->| ->]. }
    2:{ done. }
    destruct (alloc m n n) as [[]|e'|] eqn:H2; cbn [mbind outcome_bind].
    2:{ intros [= <-]. by apply alloc_raise in H2 as [->| ->]. }
    2:{ done. }
    destruct (cast _ python (y0 p)) as [v0|e'|] eqn:H3; cbn [mbind outcome_bind].
    2:{ intros [= <-]. by apply cast_raise in H3 as [->| ->]. }
    2:{ done. }
    destruct (steps _ _ v0) as [l|e'|] eqn:H4; cbn [mbind outcome_bind]; [done| |done].
    intros [= <-]. apply steps_raise in H4 as [a Ha].
    by apply step_raise in Ha as [->| ->].
  - intros [= <-]. by apply arange_length_raise in Hn as [[-> ?]|[-> ?]].
  - done.
Qed.

Lemma SFdiv_nonfinite x y :
  sf_finite x = false → sf_ceil (SF64div x y) = None.
Proof. by destruct x, y. Qed.

Lemma SFdiv_nan_r x : SF64div x S754_nan = S754_nan.
Proof. by destruct x. Qed.

Lemma eqb_self_false x : (x =? x)%float = false → Prim2SF x = S754_nan.
Proof.
  rewrite FloatAxioms.eqb_spec. intros H. destruct (Prim2SF x) eqn:E; [| |done|].
  all: by rewrite SFeqb_refl in H.
Qed.

Lemma SFadd_nonfinite x y : sf_finite x = false → sf_finite (SF64add x y) = false.
Proof. by destruct x as [|[]| |], y as [|[]| |]. Qed.

Lemma euler_step_nonfinite p v :
  finite v = false → finite (euler_step p v) = false.
Proof.
  unfold finite, euler_step. rewrite add_spec. apply SFadd_nonfinite.
Qed.

Lemma euler_step_nan p : euler_step p nan = nan.
Proof.
  apply Prim2SF_inj. unfold euler_step. rewrite add_spec.
  change (Prim2SF nan) with S754_nan. done.
Qed.

End failure_facts.

(** The values of an [int64] run are ints of [int64]. *)
Lemma integrate_int_Ok m g p times ys :
  grid_type p = Np.int64 → integrate m g p = Ok (times, ys) →
  Forall (λ v, ∃ n, v = Int n ∧ Int64.in_range n = true) ys.
Proof.
  intros Hd (_ & _ & _ & _ & _ & v0 & Hv0 & Hys)%integrate_Ok.
  rewrite Hd in Hv0, Hys.
  apply (steps_invariant _ _ _ _ _ (λ a b H _, step_int p a b H) Hys).
  by apply cast_int in Hv0.
Qed.



(** ** The properties of the integration cell *)







(** C9: the result is a function of the five parameters alone: two runs
    with the same parameters agree, whatever the fresh memory of [y] held
    in either run. *)
Theorem integrate_deterministic m g1 g2 p : integrate m g1 p = integrate m g2 p.
Proof.
  (* both runs return what the closed form gives, which reads no memory *)
  transitivity (closed_form m p); [|symmetry]; apply integrate_closed_form.
Qed.











(** C4, as the code has it: for [dt > 0] and [Tmax <= 0] the grid has no
    point, no step is taken and no trajectory is returned: the cell fails
    on [y[0] = y0] ([IndexError]), or in [arange] when the quotient is no
    index ([ValueError]). *)
Theorem nonpositive_horizon_raises m g p :
  Py.pos (dt p) = true → Py.nonpos (Tmax p) = true →
  integrate m g p = Raise (empty_grid_error (Py.quotient (Tmax p) (dt p))).
Proof.
  intros Hdt HT. apply integrate_no_grid; [by apply pos_not_zero|].
  apply nonpos_cases in HT as [HT|HT]; [by left|right].
  apply (quotient_signed true false _ _ HT (pos_has_sign _ Hdt)).
Qed.

Lemma nonpositive_horizon_raises_witness :
  integrate small zeros negative_horizon = Raise IndexError.
Proof.
  exact (nonpositive_horizon_raises small zeros negative_horizon eq_refl eq_refl).
Defined.

(** With [Tmax = 0] the cell raises instead of returning [[y0]]. *)
Lemma zero_horizon_raises :
  Py.pos (dt no_horizon) = true
  ∧ Py.nonpos (Tmax no_horizon) = true
  ∧ integrate small zeros no_horizon = Raise IndexError.
Proof. by vm_compute. Qed.

(** C6, as the code has it: in [float64] arrays ([dt] or [Tmax] a float),
    started on [y0 == 0] or [y0 == M], with [M] finite and the product
    [dt * k * y0] finite (no overflow), every value of the trajectory
    compares equal to [y0]. *)
Theorem equilibria_are_fixed m g p times ys :
  grid_type p = Np.float64 →
  F64.finite (capacity p) = true →
  F64.finite (rate p * Py.as_float (y0 p)) = true →
  (Py.as_float (y0 p) =? 0)%float = true
  ∨ (Py.as_float (y0 p) =? capacity p)%float = true →
  integrate m g p = Ok (times, ys) →
  Forall (λ v, Np.equal v (y0 p) = true) ys.
Proof.
  intros Hd HM Hfin Heq Hint.
  rewrite (integrate_float_Ok _ _ _ _ _ Hd Hint).
  apply Forall_fmap, orbit_invariant.
  - destruct Heq as [H|H]; by apply eqb_refl_of_eqb in H.
  - intros v. by apply euler_step_fixed_at.
Qed.

Lemma equilibria_are_fixed_witness :
  (∃ times ys, integrate small zeros at_rest = Ok (times, ys)
     ∧ length ys = 10 ∧ Forall (λ v, Np.equal v (Float 0) = true) ys)
  ∧ (∃ times ys, integrate small zeros at_capacity = Ok (times, ys)
     ∧ length ys = 10 ∧ Forall (λ v, Np.equal v (Int 100) = true) ys).
Proof.
  split; eexists _, _; (split; [vm_compute; reflexivity|]); (split; [reflexivity|]).
  - eapply (equilibria_are_fixed small zeros at_rest);
      [reflexivity|reflexivity|reflexivity|by left|vm_compute; reflexivity].
  - eapply (equilibria_are_fixed small zeros at_capacity);
      [reflexivity|reflexivity|reflexivity|by right|vm_compute; reflexivity].
Defined.

(** Started on [y0 = M = 1e200] with [k = 1e200], the product
    [dt * k * y0] overflows and the second value is NaN. *)
Lemma overflow_leaves_equilibrium :
  Np.equal (y0 huge_capacity) (M huge_capacity) = true
  ∧ grid_type huge_capacity = Np.float64
  ∧ ∃ times ys, integrate small zeros huge_capacity = Ok (times, ys)
      ∧ ys !! 1 = Some (Float nan)
      ∧ Np.equal (Float nan) (y0 huge_capacity) = false.
Proof.
  split; [done|]. split; [done|]. eexists _, _.
  split; [vm_compute; reflexivity|]. by split.
Qed.

(** With whole time steps the arrays are [int64], and a start on a
    capacity [M = 2^53 + 1] that is no binary64 value does not stay: the
    sum is rounded to [2^53] before it is stored. *)
Example whole_steps_leave_capacity :
  integrate small zeros
    {| M := py_int 9007199254740993; k := PyFloat 0.01; dt := py_int 1;
       Tmax := py_int 2; y0 := py_int 9007199254740993 |}
  = Ok (Int <$> [0; 1]%Z, Int <$> [9007199254740993; 9007199254740992]%Z).
Proof. by vm_compute. Qed.

(** C7: the notebook's own parameters ([k = 0.01], [M = 100], [dt = 0.1],
    [Tmax = 10], [y0 = 2.0]) give a trajectory of exactly 100 points that
    starts at [2.0] and grows strictly from each index to the next. *)
Theorem notebook_trajectory m g :
  ∃ times ys, integrate m g notebook = Ok (times, ys)
    ∧ length ys = 100
    ∧ ys !! 0 = Some (Float 2)
    ∧ ∀ i a b, ys !! i = Some a → ys !! S i = Some b → Np.less a b = true.
Proof.
  eexists _, _. split; [apply integrate_small; vm_compute; reflexivity|].
  split; [done|]. split; [done|].
  intros i a b. apply chain_spec. by vm_compute.
Qed.

(** C8: with [y0 = 150] above [M = 100] ([k = 0.01], [dt = 0.1],
    [Tmax = 5]) the trajectory decreases from each index to the next and
    every value stays above [M]. *)
Theorem above_capacity_trajectory m g :
  ∃ times ys, integrate m g above_capacity = Ok (times, ys)
    ∧ length ys = 50
    ∧ (∀ i a b, ys !! i = Some a → ys !! S i = Some b → Np.less b a = true)
    ∧ Forall (λ v, Np.less (M above_capacity) v = true) ys.
Proof.
  eexists _, _. split; [apply integrate_small; vm_compute; reflexivity|].
  split; [done|]. split.
  - intros i a b. apply (chain_spec (λ a b, Np.less b a)). by vm_compute.
  - repeat constructor.
Qed.

(** ** More on the cells: failures, divergence, stability of the values *)

(** X1: whatever the parameters, a successful integration cell leaves a
    grid and a trajectory of one and the same non-zero length, so the
    plotting cell cannot fail on them: it draws the single line through the
    points [(times[i], y[i])] and labels the axes.  A failure of the two
    cells together is a failure of the integration cell. *)
Theorem plot_follows_integration m g p :
  match integrate m g p with
  | Ok (times, ys) =>
      length ys = length times ∧ 1 ≤ length times
      ∧ length (zip times ys) = length times
      ∧ integrate_and_plot m g p =
          Ok {| Plt.lines := [zip times ys];
                Plt.xlabel := "Time"; Plt.ylabel := "Population" |}
  | Raise e => integrate_and_plot m g p = Raise e
  | Unspecified => integrate_and_plot m g p = Unspecified
  end.
Proof.
  unfold integrate_and_plot.
  destruct (integrate m g p) as [[times ys]|e|] eqn:Hint; [|done..].
  apply integrate_Ok in Hint as (Hne & Hlen & _).
  split; [done|]. split; [done|].
  split; [rewrite length_zip; lia|].
  cbn [mbind outcome_bind]. unfold plot_cell, Plt.plot.
  by rewrite decide_True by done.
Qed.



(** X3: the horizon decides how many values there are, not what they
    are: of two runs that differ in [Tmax] only, and not in whether their
    arrays are [int64] or [float64], the shorter grid and trajectory are
    the beginning of the longer ones. *)
Theorem longer_horizon_extends m m' g g' p p' times ys times' ys' :
  M p = M p' → k p = k p' → dt p = dt p' → y0 p = y0 p' →
  grid_type p = grid_type p' →
  integrate m g p = Ok (times, ys) → integrate m' g' p' = Ok (times', ys') →
  length ys ≤ length ys' →
  times = take (length times) times' ∧ ys = take (length ys) ys'.
Proof.
  intros HM Hk Hdt Hy0 Hd
    (Hne & Hlen & Ht & _ & _ & v0 & Hv0 & Hys)%integrate_Ok
    (Hne' & Hlen' & Ht' & _ & _ & v0' & Hv0' & Hys')%integrate_Ok Hle.
  split.
  - rewrite Ht at 1. rewrite Ht'. apply grid_take; [done..|lia].
  - rewrite <- Hd, <- Hy0, Hv0 in Hv0'. injection Hv0' as <-.
    rewrite (steps_ext _ (step p (grid_type p))) in Hys'.
    2:{ intros a. unfold step, rhs. by rewrite Hd, HM, Hk, Hdt. }
    pose proof (steps_take _ _ _ _ (length times - 1) Hys') as H.
    rewrite Hys in H. rewrite Hlen.
    replace (S (length times - 1)) with (length times) in H by lia.
    assert (length times - 1 ≤ length times' - 1) as Hl by lia.
    specialize (H Hl). by injection H.
Qed.

Lemma longer_horizon_extends_witness :
  (∃ times ys times' ys',
     integrate small zeros horizon_on_grid = Ok (times, ys)
     ∧ integrate small ones notebook = Ok (times', ys')
     ∧ length ys = 4 ∧ length ys' = 100
     ∧ times = take (length times) times' ∧ ys = take (length ys) ys')
  ∧ (∃ times ys times' ys',
     integrate small zeros whole_steps_short = Ok (times, ys)
     ∧ integrate small ones whole_steps = Ok (times', ys')
     ∧ length ys = 3 ∧ length ys' = 10
     ∧ times = take (length times) times' ∧ ys = take (length ys) ys').
Proof.
  split; eexists _, _, _, _;
    (split; [vm_compute; reflexivity|]); (split; [vm_compute; reflexivity|]);
    (split; [reflexivity|]); (split; [reflexivity|]).
  - eapply (longer_horizon_extends small small zeros ones horizon_on_grid notebook);
      [reflexivity|reflexivity|reflexivity|reflexivity|reflexivity
      |vm_compute; reflexivity|vm_compute; reflexivity|simpl; lia].
  - eapply (longer_horizon_extends small small zeros ones whole_steps_short
              whole_steps);
      [reflexivity|reflexivity|reflexivity|reflexivity|reflexivity
      |vm_compute; reflexivity|vm_compute; reflexivity|simpl; lia].
Defined.

(** X4: divergence is final: after a value that is infinite or NaN every
    later value of the trajectory is infinite or NaN. *)
Theorem divergence_is_final m g p times ys i j v w :
  integrate m g p = Ok (times, ys) →
  ys !! i = Some v → Np.isfinite v = false → i ≤ j → ys !! j = Some w →
  Np.isfinite w = false.
Proof.
  intros Hint Hv Hfin Hij Hw. destruct (grid_type p) eqn:Hd.
  - (* the values of an [int64] array are finite *)
    pose proof (integrate_int_Ok _ _ _ _ _ Hd Hint) as Hall.
    rewrite Forall_lookup in Hall. by destruct (Hall _ _ Hv) as (n & -> & _).
  - rewrite (integrate_float_Ok _ _ _ _ _ Hd Hint) in Hv, Hw.
    apply list_lookup_fmap_Some in Hv as (x & -> & Hx).
    apply list_lookup_fmap_Some in Hw as (y & -> & Hy).
    eapply (orbit_absorbing (euler_step p) (λ x, F64.finite x = false)
              _ _ i j x y); try done.
    intros a. apply euler_step_nonfinite.
Qed.

Lemma divergence_is_final_witness :
  ∃ times ys, integrate small zeros huge_capacity = Ok (times, ys)
    ∧ ys !! 1 = Some (Float nan) ∧ ys !! 4 = Some (Float nan)
    ∧ Np.isfinite (Float nan) = false.
Proof.
  eexists _, _. split; [vm_compute; reflexivity|].
  split; [reflexivity|]. split; [reflexivity|].
  eapply (divergence_is_final small zeros huge_capacity _ _ 1 4
            (Float nan) (Float nan));
    [vm_compute; reflexivity|reflexivity|reflexivity|lia|reflexivity].
Defined.

(** X5: a NaN stays: after a NaN every later value of the trajectory is
    NaN. *)
Theorem nan_is_final m g p times ys i j w :
  integrate m g p = Ok (times, ys) →
  ys !! i = Some (Float nan) → i ≤ j → ys !! j = Some w → w = Float nan.
Proof.
  intros Hint Hv Hij Hw. destruct (grid_type p) eqn:Hd.
  - pose proof (integrate_int_Ok _ _ _ _ _ Hd Hint) as Hall.
    rewrite Forall_lookup in Hall. by destruct (Hall _ _ Hv) as (n & [=] & _).
  - rewrite (integrate_float_Ok _ _ _ _ _ Hd Hint) in Hv, Hw.
    apply list_lookup_fmap_Some in Hv as (x & [= <-] & Hx).
    apply list_lookup_fmap_Some in Hw as (y & -> & Hy). f_equal.
    eapply (orbit_absorbing (euler_step p) (λ x, x = nan) _ _ i j nan y);
      try done.
    intros a ->. apply euler_step_nan.
Qed.

Lemma nan_is_final_witness :
  ∃ times ys w, integrate small zeros nan_start = Ok (times, ys)
    ∧ length ys = 5 ∧ ys !! 4 = Some w ∧ w = Float nan.
Proof.
  eexists _, _, _. split; [vm_compute; reflexivity|].
  split; [reflexivity|]. split; [reflexivity|].
  eapply (nan_is_final small zeros nan_start _ _ 0 4);
    [vm_compute; reflexivity|reflexivity|lia|reflexivity].
Defined.

(** X6: the cell raises [ZeroDivisionError] exactly when the step is a
    zero: no other configuration divides by zero. *)
Theorem zero_division_iff_zero_step m g p :
  integrate m g p = Raise ZeroDivisionError ↔ Py.is_zero (dt p) = true.
Proof.
  split.
  - apply (integrate_raise m g p ZeroDivisionError).
  - intros Hz. apply integrate_length_raises.
    by rewrite arange_length_cell, Hz.
Qed.

(** X7: the loop never indexes out of bounds: the cell raises
    [IndexError] exactly when the grid is empty, and then it is the
    assignment [y[0] = y0] that fails. *)
Theorem index_error_iff_empty_grid m g p :
  integrate m g p = Raise IndexError
  ↔ Np.arange m (Int 0) (Tmax p) (dt p)
    = Ok {| Np.dtype_of := grid_type p; Np.cells := [] |}.
Proof.
  split.
  - intros (n & Hn & H0)%(integrate_raise m g p IndexError).
    rewrite arange_unfold, Hn. cbn [mbind outcome_bind].
    by replace (n <=? 0)%Z with true by lia.
  - rewrite arange_unfold.
    destruct (Np.arange_length _ _ _) as [n| |] eqn:Hn; [|done..].
    cbn [mbind outcome_bind]. destruct (Z.leb_spec n 0) as [H0|H0].
    + intros _. by apply (integrate_length_nonpositive _ _ _ n).
    + destruct (Np.alloc m 0 n) as [[]| |]; [|done..].
      cbn [mbind outcome_bind]. intros [= H].
      apply (f_equal length) in H. rewrite length_fmap, length_grid in H.
      cbn in H. lia.
Qed.

(** X8: a horizon that is infinite or NaN, or a step that is NaN, makes
    no grid: unless the step is a zero, [arange] raises [ValueError] and the
    loop never starts. *)
Theorem no_grid_without_numbers m g p :
  Py.is_zero (dt p) = false →
  Np.isfinite (Tmax p) = false ∨ Np.isnan (dt p) = true →
  integrate m g p = Raise ValueError.
Proof.
  intros Hz Hbad. apply integrate_length_raises.
  rewrite arange_length_cell, Hz. cbv zeta.
  assert (F64.sf_ceil (Py.quotient (Tmax p) (dt p)) = None) as Hq.
  { destruct Hbad as [HT|Hnan].
    - destruct (Tmax p) as [T|T]; [done|]. cbn [value_of Np.isfinite] in HT.
      assert (F64.sf_ceil (Prim2SF (T / Py.as_float (dt p))) = None) as E
        by (rewrite div_spec; by apply SFdiv_nonfinite).
      by destruct (value_of (dt p)).
    - destruct (dt p) as [d|d]; [done|]. cbn [value_of Np.isnan] in Hnan.
      apply negb_true_iff, eqb_self_false in Hnan.
      assert (∀ x, F64.sf_ceil (Prim2SF (x / d)) = None) as E
        by (intros x; by rewrite div_spec, Hnan, SFdiv_nan_r).
      destruct (value_of (Tmax p)); apply E. }
  unfold Np.safe_ceil_to_intp. by rewrite Hq.
Qed.

Lemma no_grid_without_numbers_witness :
  integrate small zeros endless = Raise ValueError
  ∧ integrate small zeros nan_step = Raise ValueError.
Proof.
  split.
  - apply (no_grid_without_numbers small zeros endless); [reflexivity|by left].
  - apply (no_grid_without_numbers small zeros nan_step); [reflexivity|by right].
Defined.

(** X9: no rate, no change: in [float64] arrays ([dt] or [Tmax] a float),
    when the product [dt * k] is a zero (a zero factor, or an underflow),
    [y0] is finite and [M - y0] is finite, every value of the trajectory
    compares equal to [y0]. *)
Theorem zero_rate_is_constant m g p times ys :
  grid_type p = Np.float64 →
  (rate p =? 0)%float = true →
  F64.finite (Py.as_float (y0 p)) = true →
  F64.finite (capacity p - Py.as_float (y0 p)) = true →
  integrate m g p = Ok (times, ys) →
  Forall (λ v, Np.equal v (y0 p) = true) ys.
Proof.
  intros Hd Hrate Hy0 HM Hint.
  rewrite (integrate_float_Ok _ _ _ _ _ Hd Hint).
  apply Forall_fmap, orbit_invariant.
  - by apply eqb_refl_finite.
  - intros v. by apply euler_step_zero_rate.
Qed.

Lemma zero_rate_is_constant_witness :
  ∃ times ys, integrate small zeros no_growth = Ok (times, ys)
    ∧ length ys = 10 ∧ Forall (λ v, Np.equal v (Float 2) = true) ys.
Proof.
  eexists _, _. split; [vm_compute; reflexivity|]. split; [reflexivity|].
  eapply (zero_rate_is_constant small zeros no_growth);
    [reflexivity|reflexivity|reflexivity|reflexivity|vm_compute; reflexivity].
Defined.

(** X10: in [float64] arrays ([dt] or [Tmax] a float) an equilibrium is
    kept once it is reached: after a value [w] with [w == 0] or [w == M],
    [M] finite and [dt * k * w] finite, every later value of the
    trajectory compares equal to [w]. *)
Theorem equilibrium_is_kept m g p times ys i j w v :
  grid_type p = Np.float64 →
  F64.finite (capacity p) = true → F64.finite (rate p * w) = true →
  (w =? 0)%float = true ∨ (w =? capacity p)%float = true →
  integrate m g p = Ok (times, ys) →
  ys !! i = Some (Float w) → i ≤ j → ys !! j = Some v →
  Np.equal v (Float w) = true.
Proof.
  intros Hd HM Hfin Heq Hint Hw Hij Hv.
  rewrite (integrate_float_Ok _ _ _ _ _ Hd Hint) in Hw, Hv.
  apply list_lookup_fmap_Some in Hw as (w' & [= <-] & Hw).
  apply list_lookup_fmap_Some in Hv as (x & -> & Hx).
  eapply (orbit_absorbing (euler_step p) (λ x, (x =? w)%float = true)
            _ _ i j w x); try done.
  - intros a. by apply euler_step_fixed_at.
  - destruct Heq as [H|H]; by apply eqb_refl_of_eqb in H.
Qed.

Lemma equilibrium_is_kept_witness :
  ∃ times ys v, integrate small zeros fast_growth = Ok (times, ys)
    ∧ ys !! 5 = Some (Float 99.999999976716936)
    ∧ ys !! 6 = Some (Float 100)
    ∧ ys !! 9 = Some v ∧ Np.equal v (Float 100) = true.
Proof.
  eexists _, _, _. split; [vm_compute; reflexivity|].
  split; [reflexivity|]. split; [reflexivity|]. split; [reflexivity|].
  eapply (equilibrium_is_kept small zeros fast_growth _ _ 6 9 100);
    [reflexivity|reflexivity|reflexivity|by right|vm_compute; reflexivity
    |reflexivity|lia|reflexivity].
Defined.

(** X11: the trajectory can be taken up again from any of its values: a
    run with the same [M], [k] and [dt] and arrays of the same type, whose
    first value is [y[i]], returns the values [y[i]], [y[i+1]], ... of the
    first run, as many as its own horizon gives. *)
Theorem restart_continues m m' g g' p p' times ys times' ys' i v :
  M p = M p' → k p = k p' → dt p = dt p' → grid_type p = grid_type p' →
  integrate m g p = Ok (times, ys) → ys !! i = Some v →
  integrate m' g' p' = Ok (times', ys') → ys' !! 0 = Some v →
  i + length ys' ≤ length ys →
  ys' = take (length ys') (drop i ys).
Proof.
  intros HM Hk Hdt Hd
    (Hne & Hlen & _ & _ & _ & v0 & Hv0 & Hys)%integrate_Ok Hi
    (Hne' & Hlen' & _ & _ & _ & v0' & Hv0' & Hys')%integrate_Ok Hi' Hle.
  rewrite (steps_head _ _ _ _ Hys') in Hi'. injection Hi' as ->.
  rewrite (steps_ext _ (step p (grid_type p))) in Hys'.
  2:{ intros a. unfold step, rhs. by rewrite Hd, HM, Hk, Hdt. }
  pose proof (steps_drop _ _ _ _ _ _ Hys Hi) as Hdrop.
  pose proof (steps_take _ _ _ _ (length times' - 1) Hdrop) as H.
  rewrite Hys' in H. rewrite Hlen'.
  replace (S (length times' - 1)) with (length times') in H by lia.
  assert (length times' - 1 ≤ length times - 1 - i) as Hl by lia.
  specialize (H Hl). by injection H.
Qed.

Lemma restart_continues_witness :
  (∃ times ys times' ys',
     integrate small zeros fast_growth = Ok (times, ys)
     ∧ integrate small ones restarted = Ok (times', ys')
     ∧ length ys = 10 ∧ length ys' = 5
     ∧ ys' = take (length ys') (drop 2 ys))
  ∧ (∃ times ys times' ys',
     integrate small zeros whole_steps = Ok (times, ys)
     ∧ integrate small ones restarted_whole = Ok (times', ys')
     ∧ length ys = 10 ∧ length ys' = 5
     ∧ ys' = take (length ys') (drop 2 ys)).
Proof.
  split; eexists _, _, _, _;
    (split; [vm_compute; reflexivity|]); (split; [vm_compute; reflexivity|]);
    (split; [reflexivity|]); (split; [reflexivity|]).
  - eapply (restart_continues small small zeros ones fast_growth restarted);
      [reflexivity|reflexivity|reflexivity|reflexivity|vm_compute; reflexivity
      |reflexivity|vm_compute; reflexivity|reflexivity|simpl; lia].
  - eapply (restart_continues small small zeros ones whole_steps restarted_whole);
      [reflexivity|reflexivity|reflexivity|reflexivity|vm_compute; reflexivity
      |reflexivity|vm_compute; reflexivity|reflexivity|simpl; lia].
Defined.

(** X12: a value that comes back makes the trajectory periodic: if
    [y[i+d]] is the very value [y[i]], then [y[j+d] = y[j]] for every later
    [j]; with [d = 1], two equal neighbours mean the trajectory has stopped
    moving, at an equilibrium or not. *)
Theorem repetition_is_periodic m g p times ys i d w j :
  integrate m g p = Ok (times, ys) →
  ys !! i = Some w → ys !! (i + d) = Some w →
  i ≤ j → j + d < length ys →
  ys !! (j + d) = ys !! j.
Proof.
  intros (Hne & Hlen & _ & _ & _ & v0 & Hv0 & Hys)%integrate_Ok Hi Hid Hij Hj.
  pose proof (steps_drop _ _ _ _ _ _ Hys Hi) as H1.
  pose proof (steps_drop _ _ _ _ _ _ Hys Hid) as H2.
  pose proof (steps_take _ _ _ _ (length times - 1 - (i + d)) H1) as H3.
  rewrite H2 in H3. assert (length times - 1 - (i + d) ≤ length times - 1 - i)
    as Hl by lia.
  specialize (H3 Hl). injection H3 as H3.
  replace (j + d) with ((i + d) + (j - i)) by lia.
  replace j with (i + (j - i)) at 2 by lia.
  rewrite <- !lookup_drop, H3. apply lookup_take_lt. lia.
Qed.

Lemma repetition_is_periodic_witness :
  (∃ times ys w, integrate small zeros long_run = Ok (times, ys)
     ∧ length ys = 400
     ∧ ys !! 371 = Some w ∧ ys !! (371 + 1) = Some w
     ∧ Np.less w (M long_run) = true
     ∧ ys !! (398 + 1) = ys !! 398)
  ∧ (∃ times ys w, integrate small zeros two_cycle = Ok (times, ys)
     ∧ length ys = 60
     ∧ ys !! 48 = Some w ∧ ys !! (48 + 2) = Some w
     ∧ ys !! (57 + 2) = ys !! 57)
  ∧ (∃ times ys, integrate small zeros two_cycle_whole = Ok (times, ys)
     ∧ length ys = 60
     ∧ ys !! 14 = Some (Int 115) ∧ ys !! (14 + 2) = Some (Int 115)
     ∧ ys !! 15 = Some (Int 77)
     ∧ ys !! (57 + 2) = ys !! 57).
Proof.
  split; [|split].
  - eexists _, _, _. split; [vm_compute; reflexivity|].
    split; [reflexivity|]. split; [reflexivity|]. split; [reflexivity|].
    split; [reflexivity|].
    eapply (repetition_is_periodic small zeros long_run _ _ 371 1 _ 398);
      [vm_compute; reflexivity|reflexivity|reflexivity|lia|simpl; lia].
  - eexists _, _, _. split; [vm_compute; reflexivity|].
    split; [reflexivity|]. split; [reflexivity|]. split; [reflexivity|].
    eapply (repetition_is_periodic small zeros two_cycle _ _ 48 2 _ 57);
      [vm_compute; reflexivity|reflexivity|reflexivity|lia|simpl; lia].
  - eexists _, _. split; [vm_compute; reflexivity|].
    split; [reflexivity|]. split; [reflexivity|]. split; [reflexivity|].
    split; [reflexivity|].
    eapply (repetition_is_periodic small zeros two_cycle_whole _ _ 14 2 _ 57);
      [vm_compute; reflexivity|reflexivity|reflexivity|lia|simpl; lia].
Defined.


